(** * Technical-analysis core of binance-mcp-enhanced

    A shallow embedding of [src/technical-analysis.ts]: support/resistance
    detection ([findSupportResistance]), trend classification
    ([detectTrend]) and return statistics ([calculatePriceStats]), together
    with the properties the specification states about them.

    JavaScript numbers are IEEE-754 binary64 values; they are modelled by
    Rocq's primitive [float], whose operations are the same binary64
    operations (round to nearest, ties to even) and whose [nan] stands for
    every NaN, as in JavaScript. *)

From Stdlib Require Import List ZArith Lia Bool Arith Floats Sorted Permutation.
From Stdlib Require Uint63.
From Stdlib Require String.
Import ListNotations.
Import String.StringSyntax.
Delimit Scope string_scope with string.

Set Warnings "-inexact-float".

(* ================================================================== *)
(** * The host language: numbers, arrays and [Math] *)
(* ================================================================== *)

Module JS.

Local Open Scope float_scope.

(** A JavaScript [number]. *)
Abbreviation number := float.

(** An array length is an integer below 2^32; read as a number it is
    that integer exactly. *)
Definition MAX_ARRAY_LENGTH : Z := 4294967295.

Definition Number_of_nat (n : nat) : number :=
  of_uint63 (Uint63.of_Z (Z.of_nat n)).

(** [arr.length] as a number. *)
Definition length_number {A : Type} (arr : list A) : number :=
  Number_of_nat (length arr).

(** [arr[i]] on an array of numbers.  Out of range the read gives
    [undefined], which every arithmetic operation and comparison of the
    source turns into NaN. *)
Definition get (arr : list number) (i : nat) : number := nth i arr nan.

(** [arr[arr.length - 1]]: [undefined] ([None]) on the empty array. *)
Definition last_elem (arr : list number) : option number :=
  match arr with
  | [] => None
  | _ => Some (last arr nan)
  end.

(** [!x] for a number: true for [+0], [-0] and NaN. *)
Definition falsy (x : number) : bool := (x =? 0) || is_nan x.

(** [!x] for a value that is a number or [undefined]. *)
Definition falsy_opt (x : option number) : bool :=
  match x with
  | None => true
  | Some v => falsy v
  end.

(** [x > y] and [x >= y]. *)
Definition gtb (x y : number) : bool := y <? x.
Definition geb (x y : number) : bool := y <=? x.

Definition Math_abs (x : number) : number := abs x.

(** [Math.sqrt]: the binary64 square root. *)
Definition Math_sqrt (x : number) : number := sqrt x.

Definition is_pos_zero (x : number) : bool := (x =? 0) && negb (get_sign x).
Definition is_neg_zero (x : number) : bool := (x =? 0) && get_sign x.

(** [Math.max(...arr)], as ECMAScript defines it: start from [-Infinity];
    a NaN argument makes the result NaN; [+0] counts as larger than
    [-0]. *)
Fixpoint Math_max_from (highest : number) (arr : list number) : number :=
  match arr with
  | [] => highest
  | x :: rest =>
      if is_nan x then nan
      else if is_pos_zero x && is_neg_zero highest then Math_max_from x rest
      else if highest <? x then Math_max_from x rest
      else Math_max_from highest rest
  end.

Definition Math_max (arr : list number) : number :=
  Math_max_from neg_infinity arr.

(** [Math.min(...arr)], symmetric: start from [+Infinity]; [-0] counts as
    smaller than [+0]. *)
Fixpoint Math_min_from (lowest : number) (arr : list number) : number :=
  match arr with
  | [] => lowest
  | x :: rest =>
      if is_nan x then nan
      else if is_neg_zero x && is_pos_zero lowest then Math_min_from x rest
      else if x <? lowest then Math_min_from x rest
      else Math_min_from lowest rest
  end.

Definition Math_min (arr : list number) : number :=
  Math_min_from infinity arr.

(** [arr.map((x, i) => f x i)]. *)
Fixpoint mapi_from {A B : Type} (f : A -> nat -> B) (i : nat) (arr : list A)
  : list B :=
  match arr with
  | [] => []
  | x :: rest => f x i :: mapi_from f (S i) rest
  end.

Definition mapi {A B : Type} (f : A -> nat -> B) (arr : list A) : list B :=
  mapi_from f O arr.

(** [arr.slice(1)]. *)
Definition slice1 {A : Type} (arr : list A) : list A := tl arr.

(** [arr.find(p)], as the position of the element found: the array
    elements are objects, and the caller mutates the one found in
    place. *)
Fixpoint findIndex {A : Type} (p : A -> bool) (arr : list A) : option nat :=
  match arr with
  | [] => None
  | x :: rest =>
      if p x then Some O
      else match findIndex p rest with
           | Some k => Some (S k)
           | None => None
           end
  end.

(** In-place update of the object at position [k]. *)
Fixpoint update {A : Type} (arr : list A) (k : nat) (f : A -> A) : list A :=
  match arr, k with
  | [], _ => []
  | x :: rest, O => f x :: rest
  | x :: rest, S k' => x :: update rest k' f
  end.

(** [arr.sort(cmp)]: ECMAScript requires a stable sort; with a
    consistent comparator every stable sort gives the same array, here
    computed by insertion.  [insert cmp x sorted] puts [x], which
    precedes every element of [sorted] in the input, before the first
    element it does not have to follow. *)
Fixpoint insert {A : Type} (cmp : A -> A -> Z) (x : A) (sorted : list A)
  : list A :=
  match sorted with
  | [] => [x]
  | y :: rest =>
      if (cmp x y <=? 0)%Z then x :: y :: rest
      else y :: insert cmp x rest
  end.

Definition sort {A : Type} (cmp : A -> A -> Z) (arr : list A) : list A :=
  fold_right (insert cmp) [] arr.

End JS.

Import JS.
Local Open Scope float_scope.

(* ================================================================== *)
(** * The indicator library *)
(* ================================================================== *)

(** The source delegates SMA, EMA and RSI to the npm package
    [technicalindicators], which is not part of the repository. *)
Module TI.

(** Modelled from the spec: the sum behind an "arithmetic mean", taken
    left to right from [0]. *)
Definition sum (values : list number) : number :=
  fold_left (fun a b => a + b) values 0.

(** Modelled from the spec: "the trailing period window at each index >=
    period - 1", oldest window first. *)
Fixpoint windows (period : nat) (values : list number) : list (list number) :=
  match values with
  | [] => []
  | _ :: rest =>
      if (period <=? length values)%nat
      then firstn period values :: windows period rest
      else []
  end.

(** Modelled from the spec: [SMA.calculate] of the package
    [technicalindicators] is missing from the sources.  Section 4.2:
    "arithmetic mean of the trailing period window at each index >=
    period - 1.  Fails (returns empty) if period > length(values) or
    period <= 0." *)
Definition SMA_calculate (period : nat) (values : list number) : list number :=
  if (period =? 0)%nat then []
  else map (fun w => sum w / Number_of_nat period) (windows period values).

(** Modelled from the spec: the running values of a smoothing recurrence
    [step prev x], after the seed. *)
Fixpoint smooth {A : Type} (step : number -> A -> number) (prev : number)
  (xs : list A) : list number :=
  match xs with
  | [] => []
  | x :: rest => let cur := step prev x in cur :: smooth step cur rest
  end.

(** Modelled from the spec: [EMA.calculate] of the package
    [technicalindicators] is missing from the sources.  Section 4.2:
    "exponential smoothing with smoothing factor 2/(period+1), seeded
    from the SMA of the first period values": without a first SMA value
    there is no seed and no output. *)
Definition EMA_calculate (period : nat) (values : list number) : list number :=
  match SMA_calculate period values with
  | [] => []
  | seed :: _ =>
      let k := 2 / (Number_of_nat period + 1) in
      seed :: smooth (fun prev v => v * k + prev * (1 - k)) seed
                     (skipn period values)
  end.

(** Modelled from the spec: the "period-over-period differences"
    [v(i) - v(i-1)], for [i >= 1]. *)
Fixpoint differences (values : list number) : list number :=
  match values with
  | [] => []
  | x :: rest =>
      match rest with
      | [] => []
      | y :: _ => (y - x) :: differences rest
      end
  end.

(** Modelled from the spec: the gain of a difference. *)
Definition gain (d : number) : number := if 0 <? d then d else 0.

(** Modelled from the spec: the loss of a difference. *)
Definition loss (d : number) : number := if d <? 0 then - d else 0.

(** Modelled from the spec: the "average-gain/average-loss ratio
    transform" [100 - 100 / (1 + avgGain / avgLoss)]. *)
Definition rsi_of (avgs : number * number) : number :=
  100 - 100 / (1 + fst avgs / snd avgs).

(** Modelled from the spec: "Wilder smoothing" of the average gain and
    the average loss. *)
Fixpoint wilder (period : number) (prev : number * number)
  (ds : list number) : list (number * number) :=
  match ds with
  | [] => []
  | d :: rest =>
      let cur := ((fst prev * (period - 1) + gain d) / period,
                  (snd prev * (period - 1) + loss d) / period) in
      cur :: wilder period cur rest
  end.

(** Modelled from the spec: [RSI.calculate] of the package
    [technicalindicators] is missing from the sources.  Section 4.2:
    "average-gain/average-loss ratio transform bounded to [0,100];
    derived via Wilder smoothing of period-over-period differences": the
    averages start from the first [period] differences, and without them
    there is no output. *)
Definition RSI_calculate (period : nat) (values : list number) : list number :=
  if (period =? 0)%nat then []
  else
    let ds := differences values in
    match windows period ds with
    | [] => []
    | first :: _ =>
        let p := Number_of_nat period in
        let seed := (sum (map gain first) / p, sum (map loss first) / p) in
        map rsi_of (seed :: wilder p seed (skipn period ds))
    end.

End TI.

(* ================================================================== *)
(** * Data model *)
(* ================================================================== *)

(** One candle. *)
Record OHLCV : Type := {
  open : number;
  high : number;
  low : number;
  close : number;
  volume : number;
  timestamp : Z
}.

Inductive LevelType : Type := support | resistance.

(** A support or resistance level.  [strength] is a number that starts at
    1 and is only ever incremented: a natural number. *)
Record Level : Type := {
  price : number;
  type : LevelType;
  strength : nat
}.

(** The strings [detectTrend] returns. *)
Inductive Trend : Type := unknown | bullish | bearish | neutral.

(** The object [calculatePriceStats] returns. *)
Record PriceStats : Type := {
  avgReturn : number;
  stdDev : number;
  sharpeRatio : number;
  maxReturn : number;
  minReturn : number;
  winRate : number
}.

(* ================================================================== *)
(** * Indicators *)
(* ================================================================== *)

Definition calculateSMA (data : list number) (period : nat) : list number :=
  TI.SMA_calculate period data.

Definition calculateEMA (data : list number) (period : nat) : list number :=
  TI.EMA_calculate period data.

Definition calculateRSI (data : list number) (period : nat) : list number :=
  TI.RSI_calculate period data.

(* ================================================================== *)
(** * Support and resistance *)
(* ================================================================== *)

(** The inner loop over [j = i - lookback .. i + lookback]. *)
Definition window (lookback i : nat) : list nat :=
  seq (i - lookback) (i + lookback + 1 - (i - lookback)).

(** [isLocalMax] after the inner loop: no [j <> i] of the window has
    [highs[j] >= highs[i]]. *)
Definition isLocalMax (highs : list number) (lookback i : nat) : bool :=
  forallb (fun j => negb (negb (j =? i)%nat && geb (get highs j) (get highs i)))
          (window lookback i).

(** [isLocalMin] after the inner loop: no [j <> i] of the window has
    [lows[j] <= lows[i]]. *)
Definition isLocalMin (lows : list number) (lookback i : nat) : bool :=
  forallb (fun j => negb (negb (j =? i)%nat && (get lows j <=? get lows i)))
          (window lookback i).

(** The outer loop [for (i = lookback; i < arr.length - lookback; i++)]. *)
Definition scanRange {A : Type} (arr : list A) (lookback : nat) : list nat :=
  seq lookback (length arr - lookback - lookback).

(** The first loop: a resistance level is pushed at every local maximum. *)
Definition pushResistances (highs : list number) (lookback : nat)
  (levels : list Level) : list Level :=
  fold_left
    (fun levels i =>
       if isLocalMax highs lookback i
       then levels ++ [{| price := get highs i; type := resistance;
                          strength := 1 |}]
       else levels)
    (scanRange highs lookback) levels.

(** The second loop: a support level is pushed at every local minimum. *)
Definition pushSupports (lows : list number) (lookback : nat)
  (levels : list Level) : list Level :=
  fold_left
    (fun levels i =>
       if isLocalMin lows lookback i
       then levels ++ [{| price := get lows i; type := support;
                          strength := 1 |}]
       else levels)
    (scanRange lows lookback) levels.

(** [levels] after the two scans. *)
Definition candidates (ohlcv : list OHLCV) (lookback : nat) : list Level :=
  let highs := map high ohlcv in
  let lows := map low ohlcv in
  pushSupports lows lookback (pushResistances highs lookback []).

(** Indices at which the first loop pushes a resistance level. *)
Definition localMaxima (highs : list number) (lookback : nat) : list nat :=
  filter (isLocalMax highs lookback) (scanRange highs lookback).

(** Indices at which the second loop pushes a support level. *)
Definition localMinima (lows : list number) (lookback : nat) : list nat :=
  filter (isLocalMin lows lookback) (scanRange lows lookback).

(** The predicate given to [acc.find]:
    [Math.abs(l.price - level.price) / level.price < threshold]. *)
Definition near (threshold : number) (level l : Level) : bool :=
  Math_abs (price l - price level) / price level <? threshold.

(** The branch taken when [existing] is found. *)
Definition merge (level existing : Level) : Level :=
  {| price := (price existing + price level) / 2;
     type := type existing;
     strength := S (strength existing) |}.

(** One step of the [reduce]. *)
Definition clusterStep (threshold : number) (acc : list Level) (level : Level)
  : list Level :=
  match findIndex (near threshold level) acc with
  | Some k => update acc k (merge level)
  | None => acc ++ [level]
  end.

(** [levels.reduce(..., [])]. *)
Definition cluster (threshold : number) (levels : list Level) : list Level :=
  fold_left (clusterStep threshold) levels [].

(** The comparator [(a, b) => b.strength - a.strength]. *)
Definition byStrengthDesc (a b : Level) : Z :=
  (Z.of_nat (strength b) - Z.of_nat (strength a))%Z.

Definition default_lookback : nat := 20.
Definition default_threshold : number := 0.02.

(** [lookback] is a number of bars, a natural number. *)
Definition findSupportResistance (ohlcv : list OHLCV) (lookback : nat)
  (threshold : number) : list Level :=
  sort byStrengthDesc (cluster threshold (candidates ohlcv lookback)).

(* ================================================================== *)
(** * Trend *)
(* ================================================================== *)

Definition default_shortPeriod : nat := 20.
Definition default_longPeriod : nat := 50.

Definition detectTrend (prices : list number) (shortPeriod longPeriod : nat)
  : Trend :=
  let shortSMA := calculateSMA prices shortPeriod in
  let longSMA := calculateSMA prices longPeriod in
  let recentShort := last_elem shortSMA in
  let recentLong := last_elem longSMA in
  if falsy_opt recentShort || falsy_opt recentLong then unknown
  else
    match recentShort, recentLong with
    | Some s, Some l =>
        if gtb s l then bullish
        else if s <? l then bearish
        else neutral
    | _, _ => unknown
    end.

(* ================================================================== *)
(** * Price statistics *)
(* ================================================================== *)

Section PriceStatistics.

(** [Math.pow]: ECMAScript fixes its value at zeros, infinities and NaN
    and leaves the rest to the engine, so it is a parameter here. *)
Variable Math_pow : number -> number -> number.

(** [closes.slice(1).map((close, i) => (close - closes[i]) / closes[i] * 100)] *)
Definition returnsOf (closes : list number) : list number :=
  mapi (fun close i => (close - get closes i) / get closes i * 100)
       (slice1 closes).

Definition calculatePriceStats (ohlcv : list OHLCV) : PriceStats :=
  let closes := map close ohlcv in
  let returns := returnsOf closes in
  let avgReturn :=
    fold_left (fun a b => a + b) returns 0 / length_number returns in
  let variance :=
    fold_left (fun a b => a + Math_pow (b - avgReturn) 2) returns 0
    / length_number returns in
  let stdDev := Math_sqrt variance in
  {| avgReturn := avgReturn;
     stdDev := stdDev;
     sharpeRatio := avgReturn / stdDev * Math_sqrt 252;
     maxReturn := Math_max returns;
     minReturn := Math_min returns;
     winRate := length_number (filter (fun r => gtb r 0) returns)
                / length_number returns * 100 |}.

End PriceStatistics.

(* ================================================================== *)
(** * The order of binary64 values *)
(* ================================================================== *)

(** Every value other than NaN has a rank in a lexicographic order on
    integer triples: class (from [-Infinity] to [+Infinity], the two
    zeros together), then exponent, then mantissa. *)
Definition rank (x : spec_float) : Z * Z * Z :=
  match x with
  | S754_infinity true => (-2, 0, 0)%Z
  | S754_finite true m e => (-1, - e, Zneg m)%Z
  | S754_zero _ | S754_nan => (0, 0, 0)%Z
  | S754_finite false m e => (1, e, Zpos m)%Z
  | S754_infinity false => (2, 0, 0)%Z
  end.

(** Lexicographic comparison of two ranks. *)
Definition lex_cmp (a b : Z * Z * Z) : comparison :=
  let '(a1, a2, a3) := a in
  let '(b1, b2, b3) := b in
  match (a1 ?= b1)%Z with
  | Eq => match (a2 ?= b2)%Z with Eq => (a3 ?= b3)%Z | c => c end
  | c => c
  end.

(** The strict lexicographic order on ranks. *)
Definition lex_lt (a b : Z * Z * Z) : Prop :=
  let '(a1, a2, a3) := a in
  let '(b1, b2, b3) := b in
  (a1 < b1 \/ (a1 = b1 /\ (a2 < b2 \/ (a2 = b2 /\ a3 < b3))))%Z.

(* ================================================================== *)
(** * Statements of the specification, in its own words *)
(* ================================================================== *)

Module Spec.

(** No NaN among the values. *)
Definition noNaN (values : list number) : Prop :=
  Forall (fun x => is_nan x = false) values.

(** The invariant of a candle in the data model:
    [low <= open, close <= high]. *)
Definition candleInvariant (d : OHLCV) : Prop :=
  (low d <=? open d) = true /\ (open d <=? high d) = true /\
  (low d <=? close d) = true /\ (close d <=? high d) = true.

(** [values[i]] is the strict maximum of the window [i - L .. i + L],
    which lies within the sequence. *)
Definition strictMaxAt (values : list number) (L i : nat) : Prop :=
  (L <= i)%nat /\ (i + L < length values)%nat /\
  forall j, (i - L <= j <= i + L)%nat -> j <> i ->
            (get values j <? get values i) = true.

(** [values[i]] is the strict minimum of the window [i - L .. i + L],
    which lies within the sequence. *)
Definition strictMinAt (values : list number) (L i : nat) : Prop :=
  (L <= i)%nat /\ (i + L < length values)%nat /\
  forall j, (i - L <= j <= i + L)%nat -> j <> i ->
            (get values i <? get values j) = true.

(** Total strength of a list of levels. *)
Definition totalStrength (levels : list Level) : nat :=
  list_sum (map strength levels).

(** No level lies within the relative threshold of an earlier one. *)
Definition separated (threshold : number) (levels : list Level) : Prop :=
  ForallOrdPairs (fun earlier later => near threshold later earlier = false)
                 levels.

(** "Re-clustering an already-clustered level set with the same threshold
    yields the same set." *)
Definition clustering_idempotent : Prop :=
  forall (threshold : number) (levels : list Level),
    cluster threshold (cluster threshold levels) = cluster threshold levels.

(** Descending by strength. *)
Definition strengthDescending (levels : list Level) : Prop :=
  StronglySorted (fun a b => (strength b <= strength a)%nat) levels.

(** The levels of strength [s], in the order they have in [levels]. *)
Definition withStrength (s : nat) (levels : list Level) : list Level :=
  filter (fun l => (strength l =? s)%nat) levels.

(** "short > long: bullish, short < long: bearish, equal: neutral; if
    either is undefined (insufficient data): unknown", with unknown in
    that case only. *)
Definition trend_by_defined_values : Prop :=
  forall prices : list number,
    let s := last_elem (calculateSMA prices default_shortPeriod) in
    let l := last_elem (calculateSMA prices default_longPeriod) in
    let t := detectTrend prices default_shortPeriod default_longPeriod in
    (t = unknown <-> s = None \/ l = None)
    /\ forall a b, s = Some a -> l = Some b ->
         ((b <? a) = true -> t = bullish)
         /\ ((a <? b) = true -> t = bearish)
         /\ ((a =? b) = true -> t = neutral).

(** The percentage return of bar [i >= 1]:
    [(close(i) - close(i-1)) / close(i-1) * 100]. *)
Definition pctReturn (closes : list number) (i : nat) : number :=
  (get closes i - get closes (i - 1)) / get closes (i - 1) * 100.

(** Sum of the first [k] values, in order. *)
Fixpoint sumTo (r : list number) (k : nat) : number :=
  match k with
  | O => 0
  | S k' => sumTo r k' + get r k'
  end.

(** Mean of [r]: the sum over the number of values. *)
Definition mean (r : list number) : number :=
  sumTo r (length r) / Number_of_nat (length r).

(** Sum of the squared deviations from [mu] of the first [k] values. *)
Fixpoint sumSquaredDeviationsTo (pow : number -> number -> number)
  (r : list number) (mu : number) (k : nat) : number :=
  match k with
  | O => 0
  | S k' => sumSquaredDeviationsTo pow r mu k' + pow (get r k' - mu) 2
  end.

(** Population standard deviation of [r]: the squared deviations from the
    mean are divided by the number of values. *)
Definition populationStdDev (pow : number -> number -> number)
  (r : list number) : number :=
  Math_sqrt (sumSquaredDeviationsTo pow r (mean r) (length r)
             / Number_of_nat (length r)).

(** Number of values strictly greater than 0. *)
Fixpoint countPositive (r : list number) : nat :=
  match r with
  | [] => O
  | x :: rest => if 0 <? x then S (countPositive rest) else countPositive rest
  end.

(** Percentage of values strictly greater than 0. *)
Definition percentPositive (r : list number) : number :=
  Number_of_nat (countPositive r) / Number_of_nat (length r) * 100.

(** [m] is the maximum of [r]: a member no other member exceeds. *)
Definition isMaximum (m : number) (r : list number) : Prop :=
  In m r /\ forall x, In x r -> (x <=? m) = true.

(** [m] is the minimum of [r]. *)
Definition isMinimum (m : number) (r : list number) : Prop :=
  In m r /\ forall x, In x r -> (m <=? x) = true.

End Spec.

(* ================================================================== *)
(** * Sample inputs *)
(* ================================================================== *)

Module Sample.

(** The bar number [t], with the given high, low and close; it opens at
    its close. *)
Definition bar (t : Z) (h l c : number) : OHLCV :=
  {| open := c; high := h; low := l; close := c; volume := 1;
     timestamp := t |}.

(** Seven bars: highs peak at 100 and 103, lows dip at 101.9. *)
Definition drifting : list OHLCV :=
  [ bar 1 99 98 98.5; bar 2 100 98 99; bar 3 99.5 98.5 99;
    bar 4 103 102 102.5; bar 5 102.8 101.9 102; bar 6 102.5 102 102.2;
    bar 7 102.5 102 102.2 ].

(** Fifty closes at zero. *)
Definition flat_zero : list number := repeat 0 50.

(** Sixty closes rising from 1 to 60. *)
Definition ramp : list number := map Number_of_nat (seq 1 60).

(** Three bars closing at 5. *)
Definition constant5 : list OHLCV := [bar 1 6 4 5; bar 2 6 4 5; bar 3 6 4 5].

(** Four bars closing at 5, 6, 5.5 and 7. *)
Definition rising : list OHLCV :=
  [bar 1 6 4 5; bar 2 7 5 6; bar 3 6 5 5.5; bar 4 8 5 7].

(** A [Math.pow] that is exact at exponent 2, the only exponent the
    source uses. *)
Definition pow_by_squaring (x y : number) : number :=
  if y =? 2 then x * x else nan.

End Sample.

(* ================================================================== *)
(** * The server: key validation, error messages and request handlers *)
(* ================================================================== *)

(** A JavaScript string; a character stands for one code unit. *)
Abbreviation string := String.string.

Module Server.

Local Open Scope string_scope.

(** The [response] of a failed request, as far as the server reads it. *)
Record HttpResponse : Type := { status : number }.

(** A thrown value, as far as the server reads it: an axios error has a
    [code] or a [response]; an [Error] made by [new Error(msg)] has
    neither. *)
Record ErrorObject : Type := {
  response : option HttpResponse;
  code : option string;
  message : string
}.

(** [new Error(msg)]. *)
Definition Error (msg : string) : ErrorObject :=
  {| response := None; code := None; message := msg |}.

(** [validateApiKey], given the value of [process.env.BINANCE_API_KEY]:
    the key, or the error thrown. *)
Definition validateApiKey (BINANCE_API_KEY : option string)
  : string + ErrorObject :=
  match BINANCE_API_KEY with
  | None => inr (Error "BINANCE_API_KEY environment variable not set")
  | Some apiKey =>
      if String.eqb apiKey "" then
        inr (Error "BINANCE_API_KEY environment variable not set")
      else if (String.length apiKey <? 32)%nat
              || (128 <? String.length apiKey)%nat then
        inr (Error "Invalid BINANCE_API_KEY format")
      else inl apiKey
  end.

(** [error?.response?.status === n]. *)
Definition status_is (error : ErrorObject) (n : number) : bool :=
  match response error with
  | Some r => status r =? n
  | None => false
  end.

(** [error?.response?.status >= n]. *)
Definition status_at_least (error : ErrorObject) (n : number) : bool :=
  match response error with
  | Some r => geb (status r) n
  | None => false
  end.

(** [error?.code === c]. *)
Definition code_is (error : ErrorObject) (c : string) : bool :=
  match code error with
  | Some c' => String.eqb c' c
  | None => false
  end.

Definition sanitizeError (error : ErrorObject) : string :=
  if status_is error 401 then
    "Authentication failed. Please check your API key."
  else if status_is error 429 then
    "Rate limit exceeded. Please try again later."
  else if status_at_least error 500 then
    "Binance API server error. Please try again later."
  else if code_is error "ECONNREFUSED" || code_is error "ETIMEDOUT" then
    "Unable to connect to Binance API. Please check your network connection."
  else "An error occurred while fetching data.".

(** What a tool handler returns: the text of its single content item and
    the [isError] flag (absent, hence false, on success). *)
Record ToolResult : Type := { text : string; isError : bool }.

(** The value of a request parameter. *)
Inductive ParamValue : Type :=
| PUndefined
| PString (s : string)
| PNumber (n : number).

(** An optional numeric argument, as a parameter value. *)
Definition optionalNumber (x : option number) : ParamValue :=
  match x with
  | Some n => PNumber n
  | None => PUndefined
  end.

(** A call [axiosInstance.get(url, { params, headers })]. *)
Record Request : Type := {
  url : string;
  params : list (string * ParamValue);
  headers : list (string * string)
}.

(** [args.limit || dflt]. *)
Definition limitOr (limit : option number) (dflt : number) : number :=
  if falsy_opt limit then dflt
  else match limit with
       | Some l => l
       | None => dflt
       end.

(** [Math.min(args.limit || 500, 1000)]. *)
Definition clampLimit (limit : option number) : number :=
  Math_min [limitOr limit 500; 1000].

(** The guard of [get_aggregate_trades]:
    [args.startTime && args.endTime && args.endTime <= args.startTime]. *)
Definition badTimeRange (startTime endTime : option number) : bool :=
  match startTime, endTime with
  | Some s, Some e => negb (falsy s) && negb (falsy e) && (e <=? s)
  | _, _ => false
  end.

(** [args.symbol]: an absent or empty string is falsy. *)
Definition hasSymbol (symbol : option string) : bool :=
  match symbol with
  | Some s => negb (String.eqb s "")
  | None => false
  end.

(** [args.symbols]: an array, even an empty one, is truthy. *)
Definition hasSymbols (symbols : option (list string)) : bool :=
  match symbols with
  | Some _ => true
  | None => false
  end.

Section Handlers.

(** The body of a successful response and its rendering by
    [JSON.stringify(response.data, null, 2)]. *)
Variable Data : Type.
Variable JSON_stringify : Data -> string.

(** [JSON.stringify(args.symbols)]. *)
Variable JSON_stringify_symbols : list string -> string.

(** The network: what a request resolves to, or the error it rejects
    with. *)
Variable axios_get : Request -> Data + ErrorObject.

(** The [try] block's normal return. *)
Definition succeeded (data : Data) : ToolResult :=
  {| text := JSON_stringify data; isError := false |}.

(** The [catch] block: the prefix followed by [sanitizeError(error)]. *)
Definition failed (prefix : string) (error : ErrorObject) : ToolResult :=
  {| text := String.append prefix (sanitizeError error); isError := true |}.

(** [await axiosInstance.get(...)] inside [try]/[catch]. *)
Definition respond (prefix : string) (request : Request) : ToolResult :=
  match axios_get request with
  | inl data => succeeded data
  | inr error => failed prefix error
  end.

Definition historicalTradesRequest (apiKey symbol : string)
  (limit fromId : option number) : Request :=
  {| url := "/api/v3/historicalTrades";
     params := [ ("symbol", PString symbol);
                 ("limit", PNumber (clampLimit limit));
                 ("fromId", optionalNumber fromId) ]%string;
     headers := [ ("X-MBX-APIKEY", apiKey) ]%string |}.

(** The handler of the tool [get_historical_trades]. *)
Definition get_historical_trades (BINANCE_API_KEY : option string)
  (symbol : string) (limit fromId : option number) : ToolResult :=
  match validateApiKey BINANCE_API_KEY with
  | inr error => failed "Failed to get historical trades: " error
  | inl apiKey =>
      respond "Failed to get historical trades: "
              (historicalTradesRequest apiKey symbol limit fromId)
  end.

Definition aggregateTradesRequest (symbol : string)
  (fromId startTime endTime limit : option number) : Request :=
  {| url := "/api/v3/aggTrades";
     params := [ ("symbol", PString symbol);
                 ("fromId", optionalNumber fromId);
                 ("startTime", optionalNumber startTime);
                 ("endTime", optionalNumber endTime);
                 ("limit", PNumber (clampLimit limit)) ]%string;
     headers := [] |}.

(** The handler of the tool [get_aggregate_trades]. *)
Definition get_aggregate_trades (symbol : string)
  (fromId startTime endTime limit : option number) : ToolResult :=
  if badTimeRange startTime endTime then
    failed "Failed to get aggregate trades: "
           (Error "End time must be after start time")
  else
    respond "Failed to get aggregate trades: "
            (aggregateTradesRequest symbol fromId startTime endTime limit).

(** [params] of the ticker tools: [symbol] if given, else [symbols] if
    given, else nothing. *)
Definition tickerParams (symbol : option string) (symbols : option (list string))
  : list (string * ParamValue) :=
  if hasSymbol symbol then
    match symbol with
    | Some s => [("symbol", PString s)]%string
    | None => []
    end
  else
    match symbols with
    | Some ss => [("symbols", PString (JSON_stringify_symbols ss))]%string
    | None => []
    end.

(** The handler of the tool [get_24hr_ticker]. *)
Definition get_24hr_ticker (symbol : option string)
  (symbols : option (list string)) : ToolResult :=
  if hasSymbol symbol && hasSymbols symbols then
    failed "Failed to get 24hr price statistics: "
           (Error "Provide either symbol or symbols, not both")
  else
    respond "Failed to get 24hr price statistics: "
            {| url := "/api/v3/ticker/24hr";
               params := tickerParams symbol symbols;
               headers := [] |}.

End Handlers.

(** The messages [sanitizeError] can return. *)
Definition sanitizedMessages : list string :=
  [ "Authentication failed. Please check your API key.";
    "Rate limit exceeded. Please try again later.";
    "Binance API server error. Please try again later.";
    "Unable to connect to Binance API. Please check your network connection.";
    "An error occurred while fetching data." ]%string.

End Server.

(* ================================================================== *)
(** * The analysis tools *)
(* ================================================================== *)

Module Performance.

(** The entry of a symbol under the metric ['performance']. *)
Record Entry : Type := {
  currentPrice : option number;
  return24h : number;
  winRate : number;
  sharpeRatio : number
}.

End Performance.

Module Analysis.

Local Open Scope string_scope.

(** The signal derived from the latest RSI:
    [currentRSI ? (currentRSI > 70 ? 'overbought' :
                   currentRSI < 30 ? 'oversold' : 'neutral') : 'unknown']. *)
Definition rsiSignal (currentRSI : option number) : string :=
  if falsy_opt currentRSI then "unknown"
  else match currentRSI with
       | Some r =>
           if gtb r 70 then "overbought"
           else if r <? 30 then "oversold"
           else "neutral"
       | None => "unknown"
       end.

(** [stdDev > 2 ? 'high' : stdDev > 1 ? 'moderate' : 'low']. *)
Definition volatilityLabel (stdDev : number) : string :=
  if gtb stdDev 2 then "high"
  else if gtb stdDev 1 then "moderate"
  else "low".

(** [l.type === 'support'] and [l.type === 'resistance']. *)
Definition isSupport (l : Level) : bool :=
  match type l with support => true | resistance => false end.

Definition isResistance (l : Level) : bool :=
  match type l with resistance => true | support => false end.

(** [analysis.levels] of [analyze_market]: the first three supports and
    the first three resistances of [findSupportResistance(ohlcv)]. *)
Definition supportLevels (ohlcv : list OHLCV) : list Level :=
  firstn 3 (filter isSupport
              (findSupportResistance ohlcv default_lookback default_threshold)).

Definition resistanceLevels (ohlcv : list OHLCV) : list Level :=
  firstn 3 (filter isResistance
              (findSupportResistance ohlcv default_lookback default_threshold)).

(** [obj[key] = value] on an object whose keys are not array indices:
    a new key goes last, an old one keeps its place. *)
Fixpoint Object_set {V : Type} (obj : list (string * V)) (key : string)
  (value : V) : list (string * V) :=
  match obj with
  | [] => [(key, value)]
  | (k, v) :: rest =>
      if String.eqb k key then (k, value) :: rest
      else (k, v) :: Object_set rest key value
  end.

(** How [sort] reads the number a comparator returns: its sign, NaN
    counting as zero. *)
Definition number_sign (v : number) : Z :=
  if v <? 0 then (-1)%Z else if 0 <? v then 1%Z else 0%Z.

(** [arr.sort(comparefn)] for a comparator that returns a number. *)
Definition sortByNumber {A : Type} (comparefn : A -> A -> number)
  (arr : list A) : list A :=
  sort (fun a b => number_sign (comparefn a b)) arr.

Section Comparison.

Variable Math_pow : number -> number -> number.

(** [analysis.conditions.volatility] of [analyze_market]. *)
Definition marketVolatility (ohlcv : list OHLCV) : string :=
  volatilityLabel (stdDev (calculatePriceStats Math_pow ohlcv)).

(** The entry [compare_symbols] stores for a symbol under the metric
    ['performance']. *)
Definition performanceEntry (ohlcv : list OHLCV) : Performance.Entry :=
  let closes := map close ohlcv in
  let stats := calculatePriceStats Math_pow ohlcv in
  {| Performance.currentPrice := last_elem closes;
     Performance.return24h := avgReturn stats * 24;
     Performance.winRate := winRate stats;
     Performance.sharpeRatio := sharpeRatio stats |}.

(** [result.symbols] after the loop over [symbolData], under the metric
    ['performance']. *)
Definition performanceSymbols (symbolData : list (string * list OHLCV))
  : list (string * Performance.Entry) :=
  fold_left
    (fun symbols data =>
       Object_set symbols (fst data) (performanceEntry (snd data)))
    symbolData [].

(** [Object.entries(result.symbols)
       .sort((a, b) => b[1].sharpeRatio - a[1].sharpeRatio)]. *)
Definition rankedEntries (symbolData : list (string * list OHLCV))
  : list (string * Performance.Entry) :=
  sortByNumber
    (fun a b => Performance.sharpeRatio (snd b) - Performance.sharpeRatio (snd a))
    (performanceSymbols symbolData).

(** [result.ranking]. *)
Definition ranking (symbolData : list (string * list OHLCV)) : list string :=
  map fst (rankedEntries symbolData).

End Comparison.

End Analysis.

Module AnalysisSample.

(** The candles fetched for two symbols. *)
Definition twoSymbols : list (string * list OHLCV) :=
  [ ("BTCUSDT", Sample.drifting); ("ETHUSDT", Sample.rising) ]%string.

End AnalysisSample.

(** [x] carries the sign [s]: it is finite and not zero, or infinite. *)
Definition has_sign (s : bool) (x : spec_float) : Prop :=
  match x with
  | S754_finite s' _ _ | S754_infinity s' => s' = s
  | _ => False
  end.

Local Close Scope float_scope.

(* ================================================================== *)
(** * Arrays: [find], in-place update and stable sort *)
(* ================================================================== *)

Section ArrayFacts.

Context {A : Type}.

Lemma findIndex_None (p : A -> bool) (arr : list A) :
  findIndex p arr = None <-> forall x, In x arr -> p x = false.
Proof.
  induction arr as [|y rest IH]; cbn.
  - split; [intros _ x []|reflexivity].
  - destruct (p y) eqn:Hy.
    + split; [discriminate|]. intros H. rewrite (H y) in Hy by auto. discriminate.
    + destruct (findIndex p rest) as [k|].
      * split; [discriminate|]. intros H.
        assert (Some k = None) by (apply IH; intros x Hx; apply H; now right).
        discriminate.
      * split; [|reflexivity]. intros _ x [<-|Hx]; [assumption|].
        now apply IH.
Qed.

Lemma findIndex_Some (p : A -> bool) (arr : list A) (k : nat) (x : A) :
  nth_error arr k = Some x ->
  p x = true ->
  (forall j y, j < k -> nth_error arr j = Some y -> p y = false) ->
  findIndex p arr = Some k.
Proof.
  revert k. induction arr as [|y rest IH]; intros [|k] Hk Hx Hfirst; cbn in *;
    try discriminate.
  - injection Hk as ->. now rewrite Hx.
  - rewrite (Hfirst 0%nat y) by (auto; lia).
    rewrite (IH k); auto.
    intros j z Hj Hz. apply (Hfirst (S j) z); [lia|assumption].
Qed.

Lemma findIndex_found (p : A -> bool) (arr : list A) (k : nat) :
  findIndex p arr = Some k ->
  exists x, nth_error arr k = Some x /\ p x = true /\
            forall j y, j < k -> nth_error arr j = Some y -> p y = false.
Proof.
  revert k. induction arr as [|y rest IH]; intros k; cbn; [discriminate|].
  destruct (p y) eqn:Hy.
  - intros [= <-]. exists y. repeat split; auto. intros j z Hj. lia.
  - destruct (findIndex p rest) as [k'|]; [|discriminate].
    intros [= <-]. destruct (IH k' eq_refl) as (x & Hn & Hx & Hfirst).
    exists x. repeat split; auto.
    intros [|j] z Hj; cbn.
    + now intros [= <-].
    + apply Hfirst. lia.
Qed.

Lemma update_nth_error (arr : list A) (k : nat) (f : A -> A) (x : A) :
  nth_error arr k = Some x ->
  update arr k f = firstn k arr ++ f x :: skipn (S k) arr.
Proof.
  revert k. induction arr as [|y rest IH]; intros [|k]; cbn; try discriminate.
  - now intros [= ->].
  - intros H. now rewrite (IH k H).
Qed.

Lemma update_length (arr : list A) (k : nat) (f : A -> A) :
  length (update arr k f) = length arr.
Proof.
  revert k. induction arr as [|y rest IH]; intros [|k]; cbn; auto.
Qed.

Lemma firstn_S_nth (k : nat) (arr : list A) (d : A) :
  k < length arr -> firstn (S k) arr = firstn k arr ++ [nth k arr d].
Proof.
  revert k. induction arr as [|x rest IH]; intros [|k] Hk; cbn in *;
    try lia; try reflexivity.
  f_equal. apply IH. lia.
Qed.

Lemma Forall_firstn (P : A -> Prop) (n : nat) (arr : list A) :
  Forall P arr -> Forall P (firstn n arr).
Proof.
  intros H. revert n. induction H as [|x rest Hx _ IH]; intros [|n]; cbn;
    constructor; auto.
Qed.

Lemma Forall_skipn (P : A -> Prop) (n : nat) (arr : list A) :
  Forall P arr -> Forall P (skipn n arr).
Proof.
  intros H. revert n. induction H as [|x rest Hx Hrest IH]; intros [|n]; cbn;
    auto.
Qed.

Variable cmp : A -> A -> Z.

Lemma insert_perm (x : A) (sorted : list A) :
  Permutation (insert cmp x sorted) (x :: sorted).
Proof.
  induction sorted as [|y rest IH]; cbn; [reflexivity|].
  destruct (cmp x y <=? 0)%Z; [reflexivity|].
  rewrite IH. apply perm_swap.
Qed.

Lemma sort_perm (arr : list A) : Permutation (sort cmp arr) arr.
Proof.
  induction arr as [|x rest IH]; cbn; [reflexivity|].
  rewrite insert_perm. now apply perm_skip.
Qed.

(** Elements that [x] must follow are skipped by the insertion, so a
    filter that keeps [x] and none of them sees [x] first. *)
Lemma insert_filter (keep : A -> bool) (x : A) (sorted : list A) :
  (forall y, In y sorted -> keep x = true -> keep y = true ->
             (cmp x y <=? 0)%Z = true) ->
  filter keep (insert cmp x sorted) = filter keep (x :: sorted).
Proof.
  induction sorted as [|y rest IH]; intros Hcmp; [reflexivity|].
  cbn [insert]. destruct (cmp x y <=? 0)%Z eqn:Hxy; [reflexivity|].
  cbn [filter]. rewrite IH by (intros z Hz; apply Hcmp; now right).
  cbn [filter]. destruct (keep x) eqn:Hx; [|reflexivity].
  destruct (keep y) eqn:Hy; [|reflexivity].
  rewrite (Hcmp y) in Hxy by (cbn; auto). discriminate.
Qed.

End ArrayFacts.

(* ================================================================== *)
(** * Clustering *)
(* ================================================================== *)

Section Clustering.

Variable threshold : number.

Lemma clusterStep_merge (acc : list Level) (level existing : Level) (k : nat) :
  nth_error acc k = Some existing ->
  near threshold level existing = true ->
  (forall j l, j < k -> nth_error acc j = Some l -> near threshold level l = false) ->
  clusterStep threshold acc level
  = firstn k acc ++ merge level existing :: skipn (S k) acc.
Proof.
  intros Hk Hnear Hfirst. unfold clusterStep.
  rewrite (findIndex_Some _ _ k existing Hk Hnear Hfirst).
  now apply update_nth_error.
Qed.

Lemma clusterStep_open (acc : list Level) (level : Level) :
  (forall l, In l acc -> near threshold level l = false) ->
  clusterStep threshold acc level = acc ++ [level].
Proof.
  intros H. unfold clusterStep.
  now rewrite (proj2 (findIndex_None _ _) H).
Qed.

(** The two outcomes of a step. *)
Lemma clusterStep_cases (acc : list Level) (level : Level) :
  (exists k existing,
      nth_error acc k = Some existing /\
      near threshold level existing = true /\
      clusterStep threshold acc level
      = firstn k acc ++ merge level existing :: skipn (S k) acc)
  \/ ((forall l, In l acc -> near threshold level l = false) /\
      clusterStep threshold acc level = acc ++ [level]).
Proof.
  unfold clusterStep.
  destruct (findIndex (near threshold level) acc) as [k|] eqn:Hfind.
  - left. destruct (findIndex_found _ _ _ Hfind) as (x & Hk & Hx & _).
    exists k, x. repeat split; auto. now apply update_nth_error.
  - right. split; [|reflexivity]. now apply findIndex_None.
Qed.

Lemma cluster_snoc (levels : list Level) (level : Level) :
  cluster threshold (levels ++ [level])
  = clusterStep threshold (cluster threshold levels) level.
Proof. unfold cluster. now rewrite fold_left_app. Qed.

Lemma totalStrength_app (xs ys : list Level) :
  Spec.totalStrength (xs ++ ys) = Spec.totalStrength xs + Spec.totalStrength ys.
Proof. unfold Spec.totalStrength. now rewrite map_app, list_sum_app. Qed.

Lemma totalStrength_cons (x : Level) (xs : list Level) :
  Spec.totalStrength (x :: xs) = strength x + Spec.totalStrength xs.
Proof. reflexivity. Qed.

Lemma totalStrength_split (acc : list Level) (k : nat) (x : Level) :
  nth_error acc k = Some x ->
  Spec.totalStrength acc
  = Spec.totalStrength (firstn k acc) + strength x
    + Spec.totalStrength (skipn (S k) acc).
Proof.
  revert k. induction acc as [|y rest IH]; intros [|k];
    cbn [nth_error]; try discriminate.
  - intros [= ->]. rewrite totalStrength_cons. reflexivity.
  - intros H. rewrite skipn_cons, firstn_cons, !totalStrength_cons.
    rewrite (IH k H) at 1. lia.
Qed.

Lemma clusterStep_totalStrength (acc : list Level) (level : Level) :
  strength level = 1 ->
  Spec.totalStrength (clusterStep threshold acc level)
  = S (Spec.totalStrength acc).
Proof.
  intros Hone.
  destruct (clusterStep_cases acc level) as [(k & x & Hk & _ & ->)|[_ ->]].
  - rewrite totalStrength_app, totalStrength_cons,
      (totalStrength_split acc k x Hk).
    cbn [merge strength]. lia.
  - rewrite totalStrength_app, totalStrength_cons, Hone.
    change (Spec.totalStrength []) with 0. lia.
Qed.

Lemma clusterStep_strength_pos (acc : list Level) (level : Level) :
  Forall (fun l => 1 <= strength l) acc ->
  1 <= strength level ->
  Forall (fun l => 1 <= strength l) (clusterStep threshold acc level).
Proof.
  intros Hacc Hlevel.
  destruct (clusterStep_cases acc level) as [(k & x & Hk & _ & ->)|[_ ->]].
  - apply Forall_app. split; [now apply Forall_firstn|].
    constructor; [cbn; lia|now apply Forall_skipn].
  - apply Forall_app. split; [assumption|]. now constructor.
Qed.

Lemma clusterStep_length (acc : list Level) (level : Level) :
  length (clusterStep threshold acc level) <= S (length acc).
Proof.
  unfold clusterStep. destruct (findIndex _ _).
  - rewrite update_length. lia.
  - rewrite length_app. cbn. lia.
Qed.

Lemma fold_cluster_totalStrength (levels acc : list Level) :
  Forall (fun l => strength l = 1) levels ->
  Spec.totalStrength (fold_left (clusterStep threshold) levels acc)
  = Spec.totalStrength acc + length levels.
Proof.
  revert acc. induction levels as [|level rest IH]; intros acc Hone;
    cbn [fold_left length].
  - lia.
  - inversion Hone as [|? ? H1 Hrest]; subst.
    rewrite IH, clusterStep_totalStrength by assumption. lia.
Qed.

Lemma fold_cluster_strength_pos (levels acc : list Level) :
  Forall (fun l => 1 <= strength l) levels ->
  Forall (fun l => 1 <= strength l) acc ->
  Forall (fun l => 1 <= strength l) (fold_left (clusterStep threshold) levels acc).
Proof.
  revert acc. induction levels as [|level rest IH]; intros acc Hl Hacc; cbn.
  - assumption.
  - inversion Hl; subst. apply IH; [assumption|].
    now apply clusterStep_strength_pos.
Qed.

Lemma cluster_length (levels : list Level) :
  length (cluster threshold levels) <= length levels.
Proof.
  induction levels as [|level rest IH] using rev_ind; [cbn; lia|].
  rewrite cluster_snoc, length_app. cbn.
  pose proof (clusterStep_length (cluster threshold rest) level). lia.
Qed.

Lemma separated_snoc (levels : list Level) (level : Level) :
  Spec.separated threshold (levels ++ [level]) <->
  Spec.separated threshold levels /\
  forall l, In l levels -> near threshold level l = false.
Proof.
  unfold Spec.separated. induction levels as [|x rest IH]; cbn.
  - split.
    + intros _. split; [constructor|intros l []].
    + intros _. constructor; constructor.
  - split.
    + intros H. inversion H as [|? ? Hx Hrest]; subst.
      apply IH in Hrest. destruct Hrest as [Hsep Hnear].
      rewrite Forall_app in Hx. destruct Hx as [Hx Hlast].
      split; [now constructor|].
      intros l [<-|Hl]; [now inversion Hlast|now apply Hnear].
    + intros [H Hnear]. inversion H as [|? ? Hx Hrest]; subst.
      constructor.
      * apply Forall_app. split; [assumption|].
        constructor; [|constructor]. apply Hnear. now left.
      * apply IH. split; [assumption|]. intros l Hl. apply Hnear. now right.
Qed.

End Clustering.

(* ================================================================== *)
(** * The returned levels *)
(* ================================================================== *)

(** A loop that pushes [f i] for the indices that pass [test] appends the
    images of the indices kept by [filter]. *)
Lemma fold_left_push_if {A B : Type} (test : A -> bool) (f : A -> B)
  (range : list A) (start : list B) :
  fold_left (fun acc i => if test i then acc ++ [f i] else acc) range start
  = start ++ map f (filter test range).
Proof.
  revert start. induction range as [|i rest IH]; intros start; cbn.
  - now rewrite app_nil_r.
  - rewrite IH. destruct (test i); [|reflexivity].
    cbn. now rewrite <- app_assoc.
Qed.

(** The candidates are the resistances in index order, then the supports
    in index order. *)
Lemma candidates_eq (ohlcv : list OHLCV) (lookback : nat) :
  candidates ohlcv lookback
  = map (fun i => {| price := get (map high ohlcv) i;
                     type := resistance; strength := 1 |})
        (localMaxima (map high ohlcv) lookback)
    ++ map (fun i => {| price := get (map low ohlcv) i;
                        type := support; strength := 1 |})
           (localMinima (map low ohlcv) lookback).
Proof.
  unfold candidates, pushSupports, pushResistances, localMaxima, localMinima.
  rewrite (fold_left_push_if (isLocalMax (map high ohlcv) lookback)
             (fun i => {| price := get (map high ohlcv) i;
                          type := resistance; strength := 1 |})).
  rewrite (fold_left_push_if (isLocalMin (map low ohlcv) lookback)
             (fun i => {| price := get (map low ohlcv) i;
                          type := support; strength := 1 |})).
  reflexivity.
Qed.

Lemma candidates_strength (ohlcv : list OHLCV) (lookback : nat) :
  Forall (fun l => strength l = 1) (candidates ohlcv lookback).
Proof.
  rewrite candidates_eq. apply Forall_app. split; apply Forall_forall;
    intros l Hl; apply in_map_iff in Hl; destruct Hl as (i & <- & _);
    reflexivity.
Qed.

Lemma candidates_length (ohlcv : list OHLCV) (lookback : nat) :
  length (candidates ohlcv lookback)
  = length (localMaxima (map high ohlcv) lookback)
    + length (localMinima (map low ohlcv) lookback).
Proof. rewrite candidates_eq. now rewrite length_app, !length_map. Qed.

Lemma byStrengthDesc_le (a b : Level) :
  (byStrengthDesc a b <=? 0)%Z = true <-> strength b <= strength a.
Proof. unfold byStrengthDesc. rewrite Z.leb_le. lia. Qed.

Lemma insert_strengthDescending (x : Level) (sorted : list Level) :
  Spec.strengthDescending sorted ->
  Spec.strengthDescending (insert byStrengthDesc x sorted).
Proof.
  unfold Spec.strengthDescending.
  induction 1 as [|y rest Hrest IH Hy]; cbn [insert].
  - repeat constructor.
  - destruct (byStrengthDesc x y <=? 0)%Z eqn:Hxy.
    + apply byStrengthDesc_le in Hxy.
      constructor; [now constructor|].
      constructor; [assumption|].
      eapply Forall_impl; [|exact Hy]. cbn. intros z Hz. lia.
    + constructor; [assumption|].
      apply (Permutation_Forall (x := x :: rest)).
      * symmetry. apply insert_perm.
      * constructor; [|assumption].
        destruct (Nat.le_gt_cases (strength x) (strength y)) as [|Hgt];
          [assumption|].
        assert (strength y <= strength x) as Hle by lia.
        apply byStrengthDesc_le in Hle. congruence.
Qed.

Lemma sort_strengthDescending (levels : list Level) :
  Spec.strengthDescending (sort byStrengthDesc levels).
Proof.
  induction levels as [|x rest IH]; cbn.
  - constructor.
  - now apply insert_strengthDescending.
Qed.

Lemma sort_withStrength (s : nat) (levels : list Level) :
  Spec.withStrength s (sort byStrengthDesc levels) = Spec.withStrength s levels.
Proof.
  unfold Spec.withStrength.
  induction levels as [|x rest IH]; [reflexivity|].
  cbn [sort fold_right]. fold (sort byStrengthDesc rest).
  rewrite insert_filter.
  - cbn [filter]. now rewrite IH.
  - intros y _ Hx Hy. apply Nat.eqb_eq in Hx, Hy.
    apply byStrengthDesc_le. lia.
Qed.

Lemma sort_totalStrength (levels : list Level) :
  Spec.totalStrength (sort byStrengthDesc levels) = Spec.totalStrength levels.
Proof.
  unfold Spec.totalStrength.
  induction levels as [|x rest IH]; [reflexivity|].
  cbn [sort fold_right]. fold (sort byStrengthDesc rest).
  rewrite (Permutation_list_sum
             (Permutation_map strength (insert_perm byStrengthDesc x _))).
  fold (Spec.totalStrength (x :: sort byStrengthDesc rest)).
  fold (Spec.totalStrength (x :: rest)).
  rewrite !totalStrength_cons. unfold Spec.totalStrength. now rewrite IH.
Qed.

(** C1 (amended). Re-running the clustering step with the same threshold
    leaves a list of levels unchanged exactly when no level of the list
    lies within the relative threshold of an earlier one.  The clustering
    step does not establish this for its own output: averaging moves a
    cluster's price, possibly to within the threshold of a later
    cluster. *)
Theorem C1_recluster_fixed_iff_separated
  (threshold : number) (levels : list Level) :
  cluster threshold levels = levels <->
  ForallOrdPairs
    (fun earlier later =>
       (Math_abs (price earlier - price later) / price later <? threshold)%float
       = false)
    levels.
Proof.
  change (cluster threshold levels = levels <-> Spec.separated threshold levels).
  induction levels as [|level rest IH] using rev_ind.
  - split; [intros _; constructor|reflexivity].
  - rewrite cluster_snoc, separated_snoc. split.
    + intros Hfix.
      destruct (clusterStep_cases threshold (cluster threshold rest) level)
        as [(k & x & Hk & Hnear & _)|[Hnone Hopen]].
      * exfalso. apply (f_equal (@length Level)) in Hfix.
        assert (Hlen : length (clusterStep threshold (cluster threshold rest) level)
                       = length (cluster threshold rest)).
        { unfold clusterStep.
          destruct (findIndex _ _) eqn:Hf; [apply update_length|].
          apply nth_error_In in Hk.
          rewrite (proj1 (findIndex_None _ _) Hf x Hk) in Hnear.
          discriminate. }
        rewrite Hlen, length_app in Hfix. cbn in Hfix.
        pose proof (cluster_length threshold rest). lia.
      * rewrite Hopen in Hfix. apply app_inj_tail in Hfix.
        destruct Hfix as [Hrest _]. split; [now apply IH|].
        now rewrite <- Hrest.
    + intros [Hsep Hnone]. apply IH in Hsep. rewrite Hsep.
      now apply clusterStep_open.
Qed.

(** C3. Candidates are processed in scan order; a candidate merges into
    the first cluster within the relative threshold of it, which takes the
    average of the two prices and one more unit of strength; a candidate
    near no cluster opens a new cluster at the end, of strength 1. *)
Theorem C3_greedy_clustering (threshold : number) :
  cluster threshold [] = []
  /\ (forall levels level,
        cluster threshold (levels ++ [level])
        = clusterStep threshold (cluster threshold levels) level)
  /\ (forall acc level k existing,
        nth_error acc k = Some existing ->
        (Math_abs (price existing - price level) / price level <? threshold)%float
        = true ->
        (forall j l, j < k -> nth_error acc j = Some l ->
           (Math_abs (price l - price level) / price level <? threshold)%float
           = false) ->
        clusterStep threshold acc level
        = firstn k acc
          ++ {| price := ((price existing + price level) / 2)%float;
                type := type existing;
                strength := strength existing + 1 |}
          :: skipn (S k) acc)
  /\ (forall acc level,
        (forall l, In l acc ->
           (Math_abs (price l - price level) / price level <? threshold)%float
           = false) ->
        clusterStep threshold acc level = acc ++ [level])
  /\ (forall ohlcv lookback,
        Forall (fun level => strength level = 1) (candidates ohlcv lookback)).
Proof.
  split; [reflexivity|]. split; [apply cluster_snoc|].
  split; [|split; [apply clusterStep_open|apply candidates_strength]].
  intros acc level k existing Hk Hnear Hfirst.
  rewrite (clusterStep_merge threshold acc level existing k Hk Hnear Hfirst).
  unfold merge. now rewrite Nat.add_1_r.
Qed.

(** C8. The returned levels are in descending order of strength, and the
    levels of any one strength keep the order the clusters were created
    in. *)
Theorem C8_sorted_by_strength_stable
  (ohlcv : list OHLCV) (lookback : nat) (threshold : number) :
  StronglySorted (fun a b => strength b <= strength a)
                 (findSupportResistance ohlcv lookback threshold)
  /\ forall s,
       filter (fun l => strength l =? s)
              (findSupportResistance ohlcv lookback threshold)
       = filter (fun l => strength l =? s)
                (cluster threshold (candidates ohlcv lookback)).
Proof.
  split.
  - apply sort_strengthDescending.
  - intros s. apply sort_withStrength.
Qed.

(** C9. The strengths of the returned levels add up to the number of
    extremum candidates detected (resistance plus support), and every
    returned level has strength at least 1. *)
Theorem C9_strength_counts_candidates
  (ohlcv : list OHLCV) (lookback : nat) (threshold : number) :
  list_sum (map strength (findSupportResistance ohlcv lookback threshold))
  = length (localMaxima (map high ohlcv) lookback)
    + length (localMinima (map low ohlcv) lookback)
  /\ Forall (fun level => 1 <= strength level)
            (findSupportResistance ohlcv lookback threshold).
Proof.
  unfold findSupportResistance. split.
  - fold (Spec.totalStrength
            (sort byStrengthDesc (cluster threshold (candidates ohlcv lookback)))).
    rewrite sort_totalStrength. unfold cluster.
    rewrite fold_cluster_totalStrength by apply candidates_strength.
    rewrite candidates_length. reflexivity.
  - apply (Permutation_Forall
             (x := cluster threshold (candidates ohlcv lookback))).
    + symmetry. apply sort_perm.
    + apply fold_cluster_strength_pos; [|constructor].
      eapply Forall_impl; [|apply candidates_strength].
      cbn. intros l Hl. lia.
Qed.

(* ================================================================== *)
(** * Comparisons of numbers *)
(* ================================================================== *)

Section NumberOrder.

Local Open Scope Z_scope.

Lemma lex_cmp_Lt (a b : Z * Z * Z) : lex_cmp a b = Lt <-> lex_lt a b.
Proof.
  destruct a as [[a1 a2] a3], b as [[b1 b2] b3]; unfold lex_cmp, lex_lt.
  destruct (Z.compare_spec a1 b1), (Z.compare_spec a2 b2),
    (Z.compare_spec a3 b3);
    split; intros; try discriminate; try reflexivity; lia.
Qed.

Lemma lex_cmp_Gt (a b : Z * Z * Z) : lex_cmp a b = Gt <-> lex_lt b a.
Proof.
  destruct a as [[a1 a2] a3], b as [[b1 b2] b3]; unfold lex_cmp, lex_lt.
  destruct (Z.compare_spec a1 b1), (Z.compare_spec a2 b2),
    (Z.compare_spec a3 b3);
    split; intros; try discriminate; try reflexivity; lia.
Qed.

Lemma lex_cmp_Eq (a b : Z * Z * Z) : lex_cmp a b = Eq <-> a = b.
Proof.
  destruct a as [[a1 a2] a3], b as [[b1 b2] b3]; unfold lex_cmp.
  destruct (Z.compare_spec a1 b1), (Z.compare_spec a2 b2),
    (Z.compare_spec a3 b3);
    split; intros H'; try discriminate; try reflexivity; try congruence;
    inversion H'; lia.
Qed.

(** The IEEE comparison of two values other than NaN is the comparison
    of their ranks. *)
Lemma SFcompare_rank (x y : spec_float) :
  x <> S754_nan -> y <> S754_nan ->
  SFcompare x y = Some (lex_cmp (rank x) (rank y)).
Proof.
  intros Hx Hy.
  destruct x as [[|]|[|]| |[|] m1 e1], y as [[|]|[|]| |[|] m2 e2];
    try congruence; try reflexivity; cbn [SFcompare rank lex_cmp].
  change (-1 ?= -1) with Eq. cbv iota.
  rewrite Z.compare_opp, (Z.compare_antisym e1 e2).
  destruct (e1 ?= e2); reflexivity.
Qed.

Local Open Scope float_scope.

Lemma is_nan_Prim2SF (x : number) :
  is_nan x = false <-> Prim2SF x <> S754_nan.
Proof.
  unfold is_nan. rewrite eqb_spec. unfold SFeqb. split.
  - intros H E. rewrite E in H. discriminate.
  - intros H. rewrite (SFcompare_rank _ _ H H).
    replace (lex_cmp _ _) with Eq; [reflexivity|].
    symmetry. now apply lex_cmp_Eq.
Qed.

Lemma leb_true_not_nan (x y : number) :
  (x <=? y) = true -> is_nan x = false /\ is_nan y = false.
Proof.
  rewrite leb_spec, !is_nan_Prim2SF. unfold SFleb.
  destruct (Prim2SF x), (Prim2SF y); cbn; try discriminate; split; congruence.
Qed.

Lemma ltb_true_not_nan (x y : number) :
  (x <? y) = true -> is_nan x = false /\ is_nan y = false.
Proof.
  rewrite ltb_spec, !is_nan_Prim2SF. unfold SFltb.
  destruct (Prim2SF x), (Prim2SF y); cbn; try discriminate; split; congruence.
Qed.

Lemma ltb_rank (x y : number) :
  is_nan x = false -> is_nan y = false ->
  ((x <? y) = true <-> lex_lt (rank (Prim2SF x)) (rank (Prim2SF y))).
Proof.
  rewrite !is_nan_Prim2SF, ltb_spec. intros Hx Hy. unfold SFltb.
  rewrite (SFcompare_rank _ _ Hx Hy), <- lex_cmp_Lt.
  destruct (lex_cmp _ _); split; congruence.
Qed.

Lemma leb_rank (x y : number) :
  is_nan x = false -> is_nan y = false ->
  ((x <=? y) = true <-> ~ lex_lt (rank (Prim2SF y)) (rank (Prim2SF x))).
Proof.
  rewrite !is_nan_Prim2SF, leb_spec. intros Hx Hy. unfold SFleb.
  rewrite (SFcompare_rank _ _ Hx Hy), <- lex_cmp_Gt.
  destruct (lex_cmp _ _); split; congruence.
Qed.

Lemma eqb_rank (x y : number) :
  is_nan x = false -> is_nan y = false ->
  ((x =? y) = true <-> rank (Prim2SF x) = rank (Prim2SF y)).
Proof.
  rewrite !is_nan_Prim2SF, eqb_spec. intros Hx Hy. unfold SFeqb.
  rewrite (SFcompare_rank _ _ Hx Hy), <- lex_cmp_Eq.
  destruct (lex_cmp _ _); split; congruence.
Qed.

End NumberOrder.

(** Facts about ranks, once the comparisons are rewritten to them. *)
Ltac rank_order :=
  repeat match goal with
    | |- context [rank ?p] =>
        let a := fresh "a" in
        let b := fresh "b" in
        let c := fresh "c" in
        destruct (rank p) as [[a b] c]
    | H : context [rank ?p] |- _ =>
        let a := fresh "a" in
        let b := fresh "b" in
        let c := fresh "c" in
        destruct (rank p) as [[a b] c]
    end;
  unfold lex_lt in *;
  try match goal with
    | H : (_, _, _) = (_, _, _) |- _ => inversion H; clear H
    end;
  try match goal with
    | |- (_, _, _) = (_, _, _) => f_equal; [f_equal|]
    end;
  lia.

Section NumberOrderFacts.

Local Open Scope float_scope.

Lemma leb_trans (x y z : number) :
  (x <=? y) = true -> (y <=? z) = true -> (x <=? z) = true.
Proof.
  intros H1 H2.
  destruct (leb_true_not_nan _ _ H1) as [Hx Hy].
  destruct (leb_true_not_nan _ _ H2) as [_ Hz].
  rewrite leb_rank in * by assumption. rank_order.
Qed.

Lemma ltb_leb (x y : number) : (x <? y) = true -> (x <=? y) = true.
Proof.
  intros H1. destruct (ltb_true_not_nan _ _ H1) as [Hx Hy].
  rewrite ltb_rank in H1 by assumption. rewrite leb_rank by assumption.
  rank_order.
Qed.

Lemma leb_refl (x : number) : is_nan x = false -> (x <=? x) = true.
Proof. intros Hx. rewrite leb_rank by assumption. rank_order. Qed.

Lemma not_ltb_leb (x y : number) :
  is_nan x = false -> is_nan y = false ->
  (x <? y) = false -> (y <=? x) = true.
Proof.
  intros Hx Hy H. rewrite leb_rank by assumption.
  rewrite <- ltb_rank by assumption. congruence.
Qed.

(** Without NaN, "not [>=]" is "[<]". *)
Lemma leb_false_ltb (x y : number) :
  is_nan x = false -> is_nan y = false ->
  ((x <=? y) = false <-> (y <? x) = true).
Proof.
  intros Hx Hy. rewrite ltb_rank by assumption.
  rewrite <- not_true_iff_false, leb_rank by assumption.
  split; [|tauto]. intros H. rank_order.
Qed.

Lemma ltb_asym (x y : number) : (x <? y) = true -> (y <? x) = false.
Proof.
  intros H. destruct (ltb_true_not_nan _ _ H) as [Hx Hy].
  apply not_true_iff_false. rewrite ltb_rank in * by assumption. rank_order.
Qed.

Lemma eqb_not_ltb (x y : number) :
  (x =? y) = true -> (x <? y) = false /\ (y <? x) = false.
Proof.
  intros H.
  assert (Hx : is_nan x = false /\ is_nan y = false).
  { revert H. rewrite eqb_spec, !is_nan_Prim2SF. unfold SFeqb.
    destruct (Prim2SF x), (Prim2SF y); cbn; try discriminate; split;
      congruence. }
  destruct Hx as [Hx Hy]. rewrite eqb_rank in H by assumption.
  split; apply not_true_iff_false; rewrite ltb_rank by assumption;
    rank_order.
Qed.

Lemma ltb_trichotomy (x y : number) :
  is_nan x = false -> is_nan y = false ->
  (y <? x) = false -> (x <? y) = false -> (x =? y) = true.
Proof.
  intros Hx Hy. rewrite <- !not_true_iff_false, !ltb_rank, eqb_rank by assumption.
  intros H1 H2. rank_order.
Qed.

Lemma get_not_nan (values : list number) (i : nat) :
  Spec.noNaN values -> (i < length values)%nat -> is_nan (get values i) = false.
Proof.
  intros Hn Hi. unfold Spec.noNaN in Hn. rewrite Forall_forall in Hn.
  apply Hn. unfold get. now apply nth_In.
Qed.

(** A candle that satisfies the data model's invariant has no NaN high
    or low. *)
Lemma candleInvariant_noNaN (ohlcv : list OHLCV) :
  Forall Spec.candleInvariant ohlcv ->
  Spec.noNaN (map high ohlcv) /\ Spec.noNaN (map low ohlcv).
Proof.
  unfold Spec.noNaN. induction 1 as [|d rest Hd _ [IHh IHl]]; cbn.
  - split; constructor.
  - destruct Hd as (Hlo & Hoh & _ & _).
    apply leb_true_not_nan in Hlo, Hoh.
    split; constructor; tauto.
Qed.

End NumberOrderFacts.

(* ================================================================== *)
(** * Extremum scan *)
(* ================================================================== *)

Section ExtremumScan.

Local Open Scope float_scope.

Lemma in_window (lookback i j : nat) :
  In j (window lookback i) <-> (i - lookback <= j <= i + lookback)%nat.
Proof. unfold window. rewrite in_seq. lia. Qed.

Lemma in_scanRange {A : Type} (arr : list A) (lookback i : nat) :
  In i (scanRange arr lookback)
  <-> (lookback <= i)%nat /\ (i + lookback < length arr)%nat.
Proof. unfold scanRange. rewrite in_seq. lia. Qed.

Lemma scanRange_short {A : Type} (arr : list A) (lookback : nat) :
  (length arr < 2 * lookback + 1)%nat -> scanRange arr lookback = [].
Proof.
  intros H. unfold scanRange.
  replace (length arr - lookback - lookback)%nat with O by lia. reflexivity.
Qed.

(** What the first loop tests, NaN or not: no other value of the window
    is [>=] the one at [i]. *)
Lemma in_localMaxima (highs : list number) (lookback i : nat) :
  In i (localMaxima highs lookback)
  <-> (lookback <= i)%nat /\ (i + lookback < length highs)%nat /\
      forall j, (i - lookback <= j <= i + lookback)%nat -> j <> i ->
                geb (get highs j) (get highs i) = false.
Proof.
  unfold localMaxima, isLocalMax.
  rewrite filter_In, in_scanRange, forallb_forall.
  split.
  - intros [[H1 H2] H]. repeat split; auto.
    intros j Hj Hne. apply in_window in Hj. specialize (H j Hj).
    apply Nat.eqb_neq in Hne. rewrite Hne in H. cbn [negb andb] in H.
    now apply negb_true_iff in H.
  - intros (H1 & H2 & H). repeat split; auto.
    intros j Hj. apply in_window in Hj.
    destruct (Nat.eqb_spec j i) as [->|Hne]; [reflexivity|].
    cbn [negb andb]. now rewrite (H j Hj Hne).
Qed.

(** What the second loop tests: no other value of the window is [<=] the
    one at [i]. *)
Lemma in_localMinima (lows : list number) (lookback i : nat) :
  In i (localMinima lows lookback)
  <-> (lookback <= i)%nat /\ (i + lookback < length lows)%nat /\
      forall j, (i - lookback <= j <= i + lookback)%nat -> j <> i ->
                (get lows j <=? get lows i) = false.
Proof.
  unfold localMinima, isLocalMin.
  rewrite filter_In, in_scanRange, forallb_forall.
  split.
  - intros [[H1 H2] H]. repeat split; auto.
    intros j Hj Hne. apply in_window in Hj. specialize (H j Hj).
    apply Nat.eqb_neq in Hne. rewrite Hne in H. cbn [negb andb] in H.
    now apply negb_true_iff in H.
  - intros (H1 & H2 & H). repeat split; auto.
    intros j Hj. apply in_window in Hj.
    destruct (Nat.eqb_spec j i) as [->|Hne]; [reflexivity|].
    cbn [negb andb]. now rewrite (H j Hj Hne).
Qed.

Lemma localMaxima_strict (highs : list number) (lookback i : nat) :
  Spec.noNaN highs ->
  (In i (localMaxima highs lookback) <-> Spec.strictMaxAt highs lookback i).
Proof.
  intros Hn. rewrite in_localMaxima. unfold Spec.strictMaxAt, geb.
  split; intros (H1 & H2 & H); repeat split; auto; intros j Hj Hne;
    specialize (H j Hj Hne);
    apply (leb_false_ltb (get highs i) (get highs j)); auto;
    apply get_not_nan; auto; lia.
Qed.

Lemma localMinima_strict (lows : list number) (lookback i : nat) :
  Spec.noNaN lows ->
  (In i (localMinima lows lookback) <-> Spec.strictMinAt lows lookback i).
Proof.
  intros Hn. rewrite in_localMinima. unfold Spec.strictMinAt.
  split; intros (H1 & H2 & H); repeat split; auto; intros j Hj Hne;
    specialize (H j Hj Hne);
    apply (leb_false_ltb (get lows j) (get lows i)); auto;
    apply get_not_nan; auto; lia.
Qed.

Lemma candidates_short (ohlcv : list OHLCV) (lookback : nat) :
  (length ohlcv < 2 * lookback + 1)%nat -> candidates ohlcv lookback = [].
Proof.
  intros H. rewrite candidates_eq. unfold localMaxima, localMinima.
  rewrite !scanRange_short by (rewrite length_map; exact H). reflexivity.
Qed.

End ExtremumScan.

(** C4. On candles whose highs and lows are numbers (no NaN, as the
    candle invariant [low <= open, close <= high] requires), index [i]
    yields a resistance candidate, priced [highs[i]], exactly when
    [highs[i]] is the strict maximum of the window [i - L .. i + L] of the
    highs, and a support candidate, priced [lows[i]], exactly when
    [lows[i]] is the strict minimum of that window of the lows; a sequence
    shorter than [2 * L + 1] yields no candidate and an empty result.
    Whatever the values, the test at [i] is that no other value of the
    window compares [>=] (for supports [<=]) to the one at [i]. *)
Theorem C4_candidates_are_strict_window_extrema
  (ohlcv : list OHLCV) (L : nat) :
  (Forall (fun x => is_nan x = false) (map high ohlcv) ->
   forall i, In i (localMaxima (map high ohlcv) L)
             <-> Spec.strictMaxAt (map high ohlcv) L i)
  /\ (Forall (fun x => is_nan x = false) (map low ohlcv) ->
      forall i, In i (localMinima (map low ohlcv) L)
                <-> Spec.strictMinAt (map low ohlcv) L i)
  /\ candidates ohlcv L
     = map (fun i => {| price := get (map high ohlcv) i;
                        type := resistance; strength := 1 |})
           (localMaxima (map high ohlcv) L)
       ++ map (fun i => {| price := get (map low ohlcv) i;
                           type := support; strength := 1 |})
              (localMinima (map low ohlcv) L)
  /\ (length ohlcv < 2 * L + 1 ->
      candidates ohlcv L = []
      /\ forall threshold, findSupportResistance ohlcv L threshold = [])
  /\ (forall i, In i (localMaxima (map high ohlcv) L)
                <-> L <= i /\ i + L < length ohlcv /\
                    forall j, i - L <= j <= i + L -> j <> i ->
                      geb (get (map high ohlcv) j) (get (map high ohlcv) i)
                      = false)
  /\ (forall i, In i (localMinima (map low ohlcv) L)
                <-> L <= i /\ i + L < length ohlcv /\
                    forall j, i - L <= j <= i + L -> j <> i ->
                      (get (map low ohlcv) j <=? get (map low ohlcv) i)%float
                      = false).
Proof.
  split; [|split; [|split; [|split; [|split]]]];
    try (intros i; rewrite <- (length_map high ohlcv); apply in_localMaxima);
    try (intros i; rewrite <- (length_map low ohlcv); apply in_localMinima).
  - intros Hh i. now apply localMaxima_strict.
  - intros Hl i. now apply localMinima_strict.
  - apply candidates_eq.
  - intros Hshort. pose proof (candidates_short ohlcv L Hshort) as Hc.
    split; [assumption|]. intros threshold.
    unfold findSupportResistance. now rewrite Hc.
Qed.

(* ================================================================== *)
(** * Trend *)
(* ================================================================== *)

(** What the guard and the comparisons of [detectTrend] compute, on every
    pair of most recent SMA values. *)
Lemma detectTrend_by_truthiness
  (prices : list number) (shortPeriod longPeriod : nat) :
  let s := last_elem (calculateSMA prices shortPeriod) in
  let l := last_elem (calculateSMA prices longPeriod) in
  let t := detectTrend prices shortPeriod longPeriod in
  (t = unknown <-> falsy_opt s = true \/ falsy_opt l = true)
  /\ forall a b, s = Some a -> l = Some b ->
       falsy a = false -> falsy b = false ->
       (t = bullish <-> (b <? a)%float = true)
       /\ (t = bearish <-> (a <? b)%float = true)
       /\ (t = neutral <-> (a =? b)%float = true).
Proof.
  cbv zeta. unfold detectTrend.
  destruct (last_elem (calculateSMA prices shortPeriod)) as [a|];
    destruct (last_elem (calculateSMA prices longPeriod)) as [b|];
    cbn [falsy_opt orb].
  - split.
    + destruct (falsy a) eqn:Fa; cbn [orb]; [tauto|].
      destruct (falsy b) eqn:Fb; [tauto|].
      unfold gtb. destruct (b <? a)%float, (a <? b)%float;
        split; try discriminate; intros [|]; discriminate.
    + intros a' b' [= <-] [= <-] Fa Fb. rewrite Fa, Fb. cbn [orb].
      unfold falsy in Fa, Fb. apply orb_false_iff in Fa, Fb.
      destruct Fa as [_ Na], Fb as [_ Nb]. unfold gtb.
      destruct (b <? a)%float eqn:Hba.
      * pose proof (ltb_asym _ _ Hba) as Hab. rewrite Hab.
        repeat split; try discriminate; try reflexivity.
        intros Heq. apply eqb_not_ltb in Heq. destruct Heq; congruence.
      * destruct (a <? b)%float eqn:Hab.
        -- repeat split; try discriminate; try reflexivity.
           intros Heq. apply eqb_not_ltb in Heq. destruct Heq; congruence.
        -- rewrite (ltb_trichotomy a b Na Nb Hba Hab).
           repeat split; try discriminate; reflexivity.
  - split; [rewrite orb_true_r; tauto|]. discriminate.
  - split; [tauto|]. discriminate.
  - split; [tauto|]. discriminate.
Qed.

(** C2 (amended). [detectTrend] answers "unknown" whenever one of the two
    SMAs has no most recent value (insufficient data) or has NaN for it;
    when both most recent values are numbers other than zero it answers
    "bullish" if the short one is greater than the long one, "bearish" if
    it is less, "neutral" if the two are equal, and never "unknown". *)
Theorem C2_detectTrend_on_usable_values
  (prices : list number) (shortPeriod longPeriod : nat) :
  let s := last_elem (calculateSMA prices shortPeriod) in
  let l := last_elem (calculateSMA prices longPeriod) in
  let t := detectTrend prices shortPeriod longPeriod in
  (s = None \/ l = None -> t = unknown)
  /\ (forall a b, s = Some a -> l = Some b ->
        is_nan a = true \/ is_nan b = true -> t = unknown)
  /\ forall a b, s = Some a -> l = Some b ->
       is_nan a = false -> is_nan b = false ->
       (a =? 0)%float = false -> (b =? 0)%float = false ->
       t <> unknown
       /\ (t = bullish <-> (b <? a)%float = true)
       /\ (t = bearish <-> (a <? b)%float = true)
       /\ (t = neutral <-> (a =? b)%float = true).
Proof.
  intros s l t.
  destruct (detectTrend_by_truthiness prices shortPeriod longPeriod)
    as [Hunknown Hcases].
  fold s l t in Hunknown, Hcases.
  split; [|split].
  - intros [Hs|Hl]; apply Hunknown; [left; now rewrite Hs|right; now rewrite Hl].
  - intros a b Hs Hl [Ha|Hb]; apply Hunknown; [left; rewrite Hs|right; rewrite Hl];
      cbn [falsy_opt]; unfold falsy; [rewrite Ha|rewrite Hb];
      apply orb_true_r.
  - intros a b Hs Hl Na Nb Za Zb.
    assert (Fa : falsy a = false) by (unfold falsy; now rewrite Za, Na).
    assert (Fb : falsy b = false) by (unfold falsy; now rewrite Zb, Nb).
    split; [|now apply Hcases].
    intros Ht. apply Hunknown in Ht. rewrite Hs, Hl in Ht.
    cbn [falsy_opt] in Ht. destruct Ht; congruence.
Qed.

Lemma C2_witness_rising_closes :
  last_elem (calculateSMA Sample.ramp default_shortPeriod) = Some 50.5%float
  /\ last_elem (calculateSMA Sample.ramp default_longPeriod) = Some 35.5%float
  /\ detectTrend Sample.ramp default_shortPeriod default_longPeriod = bullish.
Proof.
  assert (Hs : last_elem (calculateSMA Sample.ramp default_shortPeriod)
               = Some 50.5%float) by (vm_compute; reflexivity).
  assert (Hl : last_elem (calculateSMA Sample.ramp default_longPeriod)
               = Some 35.5%float) by (vm_compute; reflexivity).
  split; [exact Hs|]. split; [exact Hl|].
  destruct (C2_detectTrend_on_usable_values Sample.ramp default_shortPeriod
              default_longPeriod) as (_ & _ & Hcases).
  destruct (Hcases 50.5%float 35.5%float Hs Hl eq_refl eq_refl eq_refl eq_refl)
    as (_ & Hbull & _).
  apply Hbull. reflexivity.
Defined.

(** C2, as stated, fails on fifty closes at zero: both SMA values are
    defined and equal, and the answer is "unknown", because the guard
    [!recentShort || !recentLong] also takes a value of zero. *)
Lemma C2_counterexample_zero_sma : ~ Spec.trend_by_defined_values.
Proof.
  intros H. specialize (H Sample.flat_zero). cbv zeta in H.
  destruct H as [Hunknown _].
  assert (Ht : detectTrend Sample.flat_zero default_shortPeriod
                 default_longPeriod = unknown) by (vm_compute; reflexivity).
  apply Hunknown in Ht. destruct Ht as [Ht|Ht]; vm_compute in Ht; discriminate.
Qed.

(* ================================================================== *)
(** * Array lengths as numbers *)
(* ================================================================== *)

Section LengthAsNumber.

Local Open Scope Z_scope.

Lemma digits2_pos_lower (p : positive) :
  2 ^ (Zpos (digits2_pos p) - 1) <= Zpos p.
Proof.
  induction p as [p IH|p IH|]; cbn [digits2_pos]; try (cbn; lia);
    rewrite Pos2Z.inj_succ;
    replace (Z.succ (Zpos (digits2_pos p)) - 1)
      with (Z.succ (Zpos (digits2_pos p) - 1)) by lia;
    rewrite Z.pow_succ_r by lia; lia.
Qed.

Lemma digits2_pos_iter_xO (p k : positive) :
  Zpos (digits2_pos (Pos.iter xO p k)) = Zpos (digits2_pos p) + Zpos k.
Proof.
  induction k as [|k IH] using Pos.peano_ind.
  - cbn. lia.
  - rewrite Pos.iter_succ. cbn [digits2_pos]. lia.
Qed.

(** A 53-bit mantissa with an exponent in range is not rounded. *)
Lemma binary_round_aux_exact (m : positive) (e : Z) :
  Zpos (digits2_pos m) = prec -> -1074 <= e <= 971 ->
  binary_round_aux prec emax false (Zpos m) e loc_Exact = S754_finite false m e.
Proof.
  intros Hd He. unfold binary_round_aux, shr_fexp, Zdigits2.
  rewrite Hd.
  replace (fexp prec emax (prec + e) - e) with 0
    by (unfold fexp, SpecFloat.emin, prec, emax; lia).
  cbn [shr shr_record_of_loc shr_m loc_of_shr_record round_nearest_even
         Zdigits2].
  rewrite Hd.
  replace (fexp prec emax (prec + e) - e) with 0
    by (unfold fexp, SpecFloat.emin, prec, emax; lia).
  cbn [shr shr_record_of_loc shr_m].
  replace (e <=? emax - prec) with true; [reflexivity|].
  symmetry. apply Z.leb_le. unfold emax, prec. lia.
Qed.

Lemma binary_normalize_pos (p : positive) :
  Zpos p < 2 ^ 53 ->
  exists m e,
    binary_normalize prec emax (Zpos p) 0 false = S754_finite false m e.
Proof.
  intros Hp. cbn [binary_normalize]. unfold binary_round.
  pose proof (digits2_pos_lower p) as Hl.
  assert (Hd : Zpos (digits2_pos p) <= 53).
  { destruct (Z_le_gt_dec (Zpos (digits2_pos p)) 53) as [|Hgt]; [assumption|].
    assert (2 ^ 53 <= 2 ^ (Zpos (digits2_pos p) - 1))
      by (apply Z.pow_le_mono_r; lia).
    lia. }
  replace (fexp prec emax (Zpos (digits2_pos p) + 0))
    with (Zpos (digits2_pos p) - 53)
    by (unfold fexp, SpecFloat.emin, prec, emax; lia).
  unfold shl_align.
  destruct (Zpos (digits2_pos p) - 53 - 0) as [|k|k] eqn:Ek; try lia.
  - eexists _, _. apply binary_round_aux_exact; unfold prec; lia.
  - eexists _, _. apply binary_round_aux_exact.
    + rewrite digits2_pos_iter_xO. unfold prec. lia.
    + lia.
Qed.

(** The length of a non-empty array is a positive finite number. *)
Lemma Number_of_nat_pos (n : nat) :
  (0 < n)%nat -> Z.of_nat n <= MAX_ARRAY_LENGTH ->
  exists m e, Prim2SF (Number_of_nat n) = S754_finite false m e.
Proof.
  intros Hn Hb. unfold MAX_ARRAY_LENGTH in Hb. unfold Number_of_nat.
  rewrite of_uint63_spec, Uint63.of_Z_spec.
  rewrite Z.mod_small by (change Uint63.wB with (2 ^ 63); lia).
  destruct (Z.of_nat n) as [|p|p] eqn:E; try lia.
  apply binary_normalize_pos. lia.
Qed.

End LengthAsNumber.

(* ================================================================== *)
(** * Price statistics *)
(* ================================================================== *)

Section PriceStatisticsFacts.

Local Open Scope float_scope.

Variable Math_pow : number -> number -> number.

Lemma mapi_from_length {A B : Type} (f : A -> nat -> B) (i : nat) (arr : list A) :
  length (mapi_from f i arr) = length arr.
Proof.
  revert i. induction arr as [|x rest IH]; intros i; cbn; [reflexivity|].
  now rewrite IH.
Qed.

Lemma mapi_from_nth_error {A B : Type} (f : A -> nat -> B) (i k : nat)
  (arr : list A) :
  nth_error (mapi_from f i arr) k
  = option_map (fun x => f x (i + k)%nat) (nth_error arr k).
Proof.
  revert i k. induction arr as [|x rest IH]; intros i [|k]; cbn;
    try reflexivity.
  - now rewrite Nat.add_0_r.
  - rewrite IH. now rewrite Nat.add_succ_comm.
Qed.

Lemma returnsOf_length (closes : list number) :
  length (returnsOf closes) = (length closes - 1)%nat.
Proof.
  unfold returnsOf, mapi, slice1. rewrite mapi_from_length.
  destruct closes; cbn; lia.
Qed.

(** The return at position [k] compares close [k + 1] with close [k]. *)
Lemma returnsOf_get (closes : list number) (k : nat) :
  (S k < length closes)%nat ->
  get (returnsOf closes) k
  = (get closes (S k) - get closes k) / get closes k * 100.
Proof.
  intros Hk. unfold get at 1. unfold returnsOf, mapi, slice1.
  apply nth_error_nth. rewrite mapi_from_nth_error. cbn [Nat.add].
  destruct closes as [|c0 rest]; [cbn in Hk; lia|]. cbn [tl].
  cbn in Hk. rewrite (nth_error_nth' rest nan) by lia. reflexivity.
Qed.

Lemma fold_left_sumTo (r : list number) (k : nat) :
  (k <= length r)%nat ->
  fold_left (fun a b => a + b) (firstn k r) 0 = Spec.sumTo r k.
Proof.
  induction k as [|k IH]; intros Hk; [reflexivity|].
  rewrite (firstn_S_nth k r nan) by lia.
  rewrite fold_left_app. cbn [fold_left Spec.sumTo]. rewrite IH by lia.
  reflexivity.
Qed.

Lemma fold_left_sumSquaredDeviationsTo (r : list number) (mu : number) (k : nat) :
  (k <= length r)%nat ->
  fold_left (fun a b => a + Math_pow (b - mu) 2) (firstn k r) 0
  = Spec.sumSquaredDeviationsTo Math_pow r mu k.
Proof.
  induction k as [|k IH]; intros Hk; [reflexivity|].
  rewrite (firstn_S_nth k r nan) by lia.
  rewrite fold_left_app. cbn [fold_left Spec.sumSquaredDeviationsTo].
  rewrite IH by lia. reflexivity.
Qed.

Lemma filter_countPositive (r : list number) :
  length (filter (fun x => gtb x 0) r) = Spec.countPositive r.
Proof.
  induction r as [|x rest IH]; [reflexivity|].
  cbn [filter Spec.countPositive]. unfold gtb at 1.
  destruct (0 <? x); cbn [length]; now rewrite IH.
Qed.

End PriceStatisticsFacts.

(* ================================================================== *)
(** * [Math.max] and [Math.min] *)
(* ================================================================== *)

Section Extrema.

Local Open Scope float_scope.

Lemma eqb_leb (x y : number) :
  (x =? y) = true -> (x <=? y) = true /\ (y <=? x) = true.
Proof.
  intros H.
  assert (Hn : is_nan x = false /\ is_nan y = false).
  { revert H. rewrite eqb_spec, !is_nan_Prim2SF. unfold SFeqb.
    destruct (Prim2SF x), (Prim2SF y); cbn; try discriminate; split;
      congruence. }
  destruct Hn as [Hx Hy]. rewrite eqb_rank in H by assumption.
  split; rewrite leb_rank by assumption; rank_order.
Qed.

Lemma zeros_leb (x y : number) :
  (x =? 0) = true -> (y =? 0) = true -> (x <=? y) = true.
Proof.
  intros Hx Hy. apply eqb_leb in Hx, Hy.
  apply leb_trans with 0; tauto.
Qed.

Lemma leb_neg_infinity (x : number) :
  (x <=? neg_infinity) = true -> x = neg_infinity.
Proof.
  rewrite leb_spec. intros H. apply Prim2SF_inj.
  change (Prim2SF neg_infinity) with (S754_infinity true) in *.
  destruct (Prim2SF x) as [s|[|]| |[|] m e]; cbn in H; try discriminate.
  reflexivity.
Qed.

Lemma infinity_leb (x : number) :
  (infinity <=? x) = true -> x = infinity.
Proof.
  rewrite leb_spec. intros H. apply Prim2SF_inj.
  change (Prim2SF infinity) with (S754_infinity false) in *.
  destruct (Prim2SF x) as [s|[|]| |[|] m e]; cbn in H; try discriminate.
  reflexivity.
Qed.

Lemma Math_max_from_spec (r : list number) (highest : number) :
  Spec.noNaN r -> is_nan highest = false ->
  (Math_max_from highest r = highest \/ In (Math_max_from highest r) r)
  /\ (highest <=? Math_max_from highest r) = true
  /\ forall x, In x r -> (x <=? Math_max_from highest r) = true.
Proof.
  intros Hr. revert highest.
  induction Hr as [|x rest Hx _ IH]; intros highest Hh; cbn [Math_max_from].
  - repeat split; [now left|now apply leb_refl|intros x []].
  - rewrite Hx.
    assert (Hstep :
      forall h', is_nan h' = false -> (highest <=? h') = true ->
                 (x <=? h') = true -> (h' = x \/ h' = highest) ->
        (Math_max_from h' rest = highest
         \/ In (Math_max_from h' rest) (x :: rest))
        /\ (highest <=? Math_max_from h' rest) = true
        /\ forall y, In y (x :: rest) -> (y <=? Math_max_from h' rest) = true).
    { intros h' Hn Hle Hxle Hwhich.
      destruct (IH h' Hn) as (Hin & Hub & Hall).
      split; [|split].
      - destruct Hin as [->|Hin]; [|right; now right].
        destruct Hwhich as [->| ->]; [right; now left|now left].
      - now apply leb_trans with h'.
      - intros y [<-|Hy]; [now apply leb_trans with h'|now apply Hall]. }
    destruct (is_pos_zero x && is_neg_zero highest) eqn:Hzeros.
    + apply Hstep; auto; [|now apply leb_refl].
      apply andb_true_iff in Hzeros. destruct Hzeros as [Hpx Hnh].
      unfold is_pos_zero in Hpx. unfold is_neg_zero in Hnh.
      apply andb_true_iff in Hpx, Hnh. now apply zeros_leb.
    + destruct (highest <? x) eqn:Hlt.
      * apply Hstep; auto; [now apply ltb_leb|now apply leb_refl].
      * apply Hstep; auto; [now apply leb_refl|now apply not_ltb_leb].
Qed.

Lemma Math_min_from_spec (r : list number) (lowest : number) :
  Spec.noNaN r -> is_nan lowest = false ->
  (Math_min_from lowest r = lowest \/ In (Math_min_from lowest r) r)
  /\ (Math_min_from lowest r <=? lowest) = true
  /\ forall x, In x r -> (Math_min_from lowest r <=? x) = true.
Proof.
  intros Hr. revert lowest.
  induction Hr as [|x rest Hx _ IH]; intros lowest Hl; cbn [Math_min_from].
  - repeat split; [now left|now apply leb_refl|intros x []].
  - rewrite Hx.
    assert (Hstep :
      forall l', is_nan l' = false -> (l' <=? lowest) = true ->
                 (l' <=? x) = true -> (l' = x \/ l' = lowest) ->
        (Math_min_from l' rest = lowest
         \/ In (Math_min_from l' rest) (x :: rest))
        /\ (Math_min_from l' rest <=? lowest) = true
        /\ forall y, In y (x :: rest) -> (Math_min_from l' rest <=? y) = true).
    { intros l' Hn Hle Hxle Hwhich.
      destruct (IH l' Hn) as (Hin & Hlb & Hall).
      split; [|split].
      - destruct Hin as [->|Hin]; [|right; now right].
        destruct Hwhich as [->| ->]; [right; now left|now left].
      - now apply leb_trans with l'.
      - intros y [<-|Hy]; [now apply leb_trans with l'|now apply Hall]. }
    destruct (is_neg_zero x && is_pos_zero lowest) eqn:Hzeros.
    + apply Hstep; auto; [|now apply leb_refl].
      apply andb_true_iff in Hzeros. destruct Hzeros as [Hnx Hpl].
      unfold is_neg_zero in Hnx. unfold is_pos_zero in Hpl.
      apply andb_true_iff in Hnx, Hpl. now apply zeros_leb.
    + destruct (x <? lowest) eqn:Hlt.
      * apply Hstep; auto; [now apply ltb_leb|now apply leb_refl].
      * apply Hstep; auto; [now apply leb_refl|now apply not_ltb_leb].
Qed.

Lemma Math_max_from_nan (r : list number) (highest : number) :
  Exists (fun x => is_nan x = true) r -> Math_max_from highest r = nan.
Proof.
  intros Hr. revert highest.
  induction Hr as [x rest Hx|x rest _ IH]; intros highest;
    cbn [Math_max_from].
  - now rewrite Hx.
  - destruct (is_nan x); [reflexivity|].
    destruct (is_pos_zero x && is_neg_zero highest); [apply IH|].
    destruct (highest <? x); apply IH.
Qed.

Lemma Math_min_from_nan (r : list number) (lowest : number) :
  Exists (fun x => is_nan x = true) r -> Math_min_from lowest r = nan.
Proof.
  intros Hr. revert lowest.
  induction Hr as [x rest Hx|x rest _ IH]; intros lowest;
    cbn [Math_min_from].
  - now rewrite Hx.
  - destruct (is_nan x); [reflexivity|].
    destruct (is_neg_zero x && is_pos_zero lowest); [apply IH|].
    destruct (x <? lowest); apply IH.
Qed.

Lemma Math_max_isMaximum (r : list number) :
  r <> [] -> Spec.noNaN r -> Spec.isMaximum (Math_max r) r.
Proof.
  intros Hne Hr. unfold Math_max.
  destruct (Math_max_from_spec r neg_infinity Hr eq_refl) as (Hin & _ & Hall).
  split; [|assumption].
  destruct Hin as [Heq|Hin]; [|assumption].
  destruct r as [|x rest]; [congruence|].
  specialize (Hall x (or_introl eq_refl)). rewrite Heq in *.
  apply leb_neg_infinity in Hall. subst x. now left.
Qed.

Lemma Math_min_isMinimum (r : list number) :
  r <> [] -> Spec.noNaN r -> Spec.isMinimum (Math_min r) r.
Proof.
  intros Hne Hr. unfold Math_min.
  destruct (Math_min_from_spec r infinity Hr eq_refl) as (Hin & _ & Hall).
  split; [|assumption].
  destruct Hin as [Heq|Hin]; [|assumption].
  destruct r as [|x rest]; [congruence|].
  specialize (Hall x (or_introl eq_refl)). rewrite Heq in *.
  apply infinity_leb in Hall. subst x. now left.
Qed.

End Extrema.

(* ================================================================== *)
(** * Constant prices *)
(* ================================================================== *)

Section ConstantPrice.

Local Open Scope float_scope.

Lemma finite_nonzero_Prim2SF (c : number) :
  is_finite c = true -> is_zero c = false ->
  exists s m e, Prim2SF c = S754_finite s m e.
Proof.
  unfold is_finite, is_nan, is_infinity, is_zero.
  rewrite !eqb_spec, abs_spec.
  change (Prim2SF infinity) with (S754_infinity false).
  change (Prim2SF 0) with (S754_zero false).
  destruct (Prim2SF c) as [s|s| |s m e]; cbn; try discriminate.
  - destruct s; discriminate.
  - intros _ _. now exists s, m, e.
Qed.

Lemma SF64sub_diag (s : bool) (m : positive) (e : Z) :
  SF64sub (S754_finite s m e) (S754_finite s m e) = S754_zero false.
Proof. unfold SF64sub, SFsub. rewrite Z.sub_diag. reflexivity. Qed.

Lemma zero_of_Prim2SF (x : number) (s : bool) :
  Prim2SF x = S754_zero s -> x = 0 \/ x = -0.
Proof.
  intros H. destruct s; [right|left]; apply Prim2SF_inj; now rewrite H.
Qed.

(** The return between two equal, finite, nonzero closes is a zero. *)
Lemma constant_return (c : number) :
  is_finite c = true -> is_zero c = false ->
  (c - c) / c * 100 = 0 \/ (c - c) / c * 100 = -0.
Proof.
  intros Hf Hz. destruct (finite_nonzero_Prim2SF c Hf Hz) as (s & m & e & Hc).
  apply (zero_of_Prim2SF _ s).
  rewrite mul_spec, div_spec, sub_spec, Hc, SF64sub_diag.
  cbn. destruct s; reflexivity.
Qed.

Lemma returnsOf_constant (closes : list number) (c : number) :
  Forall (fun x => x = c) closes ->
  Forall (fun r => r = (c - c) / c * 100) (returnsOf closes).
Proof.
  intros Hc. rewrite Forall_forall in Hc.
  apply Forall_forall. intros r Hr.
  apply In_nth_error in Hr. destruct Hr as [k Hk].
  assert (Hlt : (k < length (returnsOf closes))%nat)
    by (apply nth_error_Some; congruence).
  rewrite returnsOf_length in Hlt.
  apply (nth_error_nth _ _ nan) in Hk. fold (get (returnsOf closes) k) in Hk.
  rewrite returnsOf_get in Hk by lia. subst r.
  rewrite (Hc (get closes (S k))) by (apply nth_In; lia).
  rewrite (Hc (get closes k)) by (apply nth_In; lia).
  reflexivity.
Qed.

Lemma zero_div_length (n : nat) :
  (0 < n)%nat -> (Z.of_nat n <= MAX_ARRAY_LENGTH)%Z ->
  0 / Number_of_nat n = 0.
Proof.
  intros Hn Hb. destruct (Number_of_nat_pos n Hn Hb) as (m & e & Hm).
  apply Prim2SF_inj. rewrite div_spec, Hm. reflexivity.
Qed.

Lemma sum_of_zeros (r : list number) :
  Forall (fun x => x = 0 \/ x = -0) r ->
  fold_left (fun a b => a + b) r 0 = 0.
Proof.
  induction 1 as [|x rest [->| ->] _ IH]; cbn [fold_left]; auto.
Qed.

Lemma squares_of_zeros (Math_pow : number -> number -> number)
  (r : list number) :
  Math_pow 0 2 = 0 -> Math_pow (-0) 2 = 0 ->
  Forall (fun x => x = 0 \/ x = -0) r ->
  fold_left (fun a b => a + Math_pow (b - 0) 2) r 0 = 0.
Proof.
  intros Hp Hn.
  induction 1 as [|x rest [->| ->] _ IH]; cbn [fold_left]; auto.
  - change (0 - 0) with 0. rewrite Hp. exact IH.
  - change (-0 - 0) with (-0). rewrite Hn. exact IH.
Qed.

Lemma no_gain_among_zeros (r : list number) :
  Forall (fun x => x = 0 \/ x = -0) r ->
  filter (fun x => gtb x 0) r = [].
Proof.
  induction 1 as [|x rest [->| ->] _ IH]; cbn [filter]; auto.
Qed.

End ConstantPrice.

(* ================================================================== *)
(** * Insufficient data *)
(* ================================================================== *)

Lemma windows_short (period : nat) (values : list number) :
  length values < period -> TI.windows period values = [].
Proof.
  intros H. destruct values as [|x rest]; [reflexivity|].
  cbn [TI.windows]. now rewrite (proj2 (Nat.leb_gt _ _) H).
Qed.

Lemma differences_length (values : list number) :
  length (TI.differences values) = length values - 1.
Proof.
  induction values as [|x rest IH]; [reflexivity|].
  cbn [TI.differences]. destruct rest as [|y rest']; [reflexivity|].
  cbn [length] in *. rewrite IH. lia.
Qed.

(** C7. With fewer samples than a positive period, [calculateSMA],
    [calculateEMA] and [calculateRSI], which are total functions, each
    return the empty sequence. *)
Theorem C7_fewer_samples_than_period_empty
  (values : list number) (period : nat) :
  0 < period -> length values < period ->
  calculateSMA values period = []
  /\ calculateEMA values period = []
  /\ calculateRSI values period = [].
Proof.
  intros Hp Hn.
  unfold calculateSMA, calculateEMA, calculateRSI,
    TI.EMA_calculate, TI.RSI_calculate, TI.SMA_calculate.
  destruct (Nat.eqb_spec period 0) as [->|_]; [lia|].
  rewrite (windows_short period values Hn).
  rewrite (windows_short period (TI.differences values))
    by (rewrite differences_length; lia).
  repeat split.
Qed.

Lemma C7_witness_two_samples_period_three :
  (0 < 3 /\ length [1; 2]%float < 3)
  /\ calculateSMA [1; 2]%float 3 = []
  /\ calculateEMA [1; 2]%float 3 = []
  /\ calculateRSI [1; 2]%float 3 = [].
Proof.
  split; [cbn; lia|].
  apply (C7_fewer_samples_than_period_empty [1; 2]%float 3); cbn; lia.
Defined.

(* ================================================================== *)
(** * Statistics of a candle sequence *)
(* ================================================================== *)

(** C5. For [n >= 2] candles the returns are the [n - 1] percentage
    changes [(close(i) - close(i-1)) / close(i-1) * 100], [1 <= i <= n-1];
    [avgReturn] is their mean, [stdDev] their population standard
    deviation (squared deviations divided by the number of returns),
    [sharpeRatio] is [avgReturn / stdDev * sqrt 252], [winRate] the
    percentage of returns strictly above zero, and [maxReturn] and
    [minReturn] the maximum and minimum of the returns; these exist when
    no return is NaN, and both results are NaN otherwise. *)
Theorem C5_price_statistics
  (Math_pow : number -> number -> number) (ohlcv : list OHLCV) :
  2 <= length ohlcv ->
  let closes := map close ohlcv in
  let r := returnsOf closes in
  let st := calculatePriceStats Math_pow ohlcv in
  length r = length ohlcv - 1
  /\ (forall i, 1 <= i <= length ohlcv - 1 ->
                get r (i - 1) = Spec.pctReturn closes i)
  /\ avgReturn st
     = (Spec.sumTo r (length ohlcv - 1)
        / Number_of_nat (length ohlcv - 1))%float
  /\ avgReturn st = Spec.mean r
  /\ stdDev st = Spec.populationStdDev Math_pow r
  /\ sharpeRatio st = (avgReturn st / stdDev st * Math_sqrt 252)%float
  /\ winRate st = Spec.percentPositive r
  /\ (Forall (fun x => is_nan x = false) r ->
      Spec.isMaximum (maxReturn st) r /\ Spec.isMinimum (minReturn st) r)
  /\ (Exists (fun x => is_nan x = true) r ->
      maxReturn st = nan /\ minReturn st = nan).
Proof.
  intros Hn closes r st.
  assert (Hlen : length r = length ohlcv - 1).
  { unfold r. rewrite returnsOf_length. unfold closes.
    now rewrite length_map. }
  assert (Havg : avgReturn st = Spec.mean r).
  { unfold st, calculatePriceStats, Spec.mean, length_number. cbn [avgReturn].
    fold closes. fold r.
    rewrite <- (fold_left_sumTo r (length r)) by lia.
    now rewrite firstn_all. }
  split; [exact Hlen|].
  split; [|split; [|split; [|split; [|split; [|split; [|split]]]]]].
  - intros i Hi. unfold r, Spec.pctReturn.
    rewrite returnsOf_get by (unfold closes; rewrite length_map; lia).
    replace (S (i - 1)) with i by lia. reflexivity.
  - rewrite Havg. unfold Spec.mean. now rewrite Hlen.
  - exact Havg.
  - unfold Spec.populationStdDev. rewrite <- Havg.
    unfold st, calculatePriceStats, length_number. cbn [stdDev avgReturn].
    fold closes. fold r.
    rewrite <- (fold_left_sumSquaredDeviationsTo Math_pow r _ (length r)) by lia.
    now rewrite firstn_all.
  - reflexivity.
  - unfold st, calculatePriceStats, Spec.percentPositive, length_number.
    cbn [winRate]. fold closes. fold r. now rewrite filter_countPositive.
  - intros Hnan.
    assert (Hne : r <> []) by (intros E; rewrite E in Hlen; cbn in Hlen; lia).
    unfold st, calculatePriceStats. cbn [maxReturn minReturn].
    fold closes. fold r.
    split; [now apply Math_max_isMaximum|now apply Math_min_isMinimum].
  - intros Hnan. unfold st, calculatePriceStats. cbn [maxReturn minReturn].
    fold closes. fold r.
    split; [now apply Math_max_from_nan|now apply Math_min_from_nan].
Qed.

Lemma C5_witness_four_bars :
  2 <= length Sample.rising
  /\ let closes := map close Sample.rising in
     let r := returnsOf closes in
     let st := calculatePriceStats Sample.pow_by_squaring Sample.rising in
     length r = length Sample.rising - 1
     /\ (forall i, 1 <= i <= length Sample.rising - 1 ->
                   get r (i - 1) = Spec.pctReturn closes i)
     /\ avgReturn st
        = (Spec.sumTo r (length Sample.rising - 1)
           / Number_of_nat (length Sample.rising - 1))%float
     /\ avgReturn st = Spec.mean r
     /\ stdDev st = Spec.populationStdDev Sample.pow_by_squaring r
     /\ sharpeRatio st = (avgReturn st / stdDev st * Math_sqrt 252)%float
     /\ winRate st = Spec.percentPositive r
     /\ (Forall (fun x => is_nan x = false) r ->
         Spec.isMaximum (maxReturn st) r /\ Spec.isMinimum (minReturn st) r)
     /\ (Exists (fun x => is_nan x = true) r ->
         maxReturn st = nan /\ minReturn st = nan).
Proof.
  split; [cbn; lia|].
  apply (C5_price_statistics Sample.pow_by_squaring Sample.rising).
  cbn; lia.
Defined.

(** C6. For at least two candles that all close at the same finite,
    nonzero price, [avgReturn], [stdDev] and [winRate] are [0] and
    [sharpeRatio] is NaN, the outcome of [0 / 0]: no default is put in its
    place.  [Math.pow] is only assumed to send a zero to [+0] at exponent
    2, as ECMAScript requires. *)
Theorem C6_constant_price_statistics
  (Math_pow : number -> number -> number) (ohlcv : list OHLCV) (c : number) :
  Math_pow 0%float 2%float = 0%float ->
  Math_pow (-0)%float 2%float = 0%float ->
  is_finite c = true -> is_zero c = false ->
  Forall (fun d => close d = c) ohlcv ->
  2 <= length ohlcv ->
  (Z.of_nat (length ohlcv) <= MAX_ARRAY_LENGTH)%Z ->
  let st := calculatePriceStats Math_pow ohlcv in
  avgReturn st = 0%float
  /\ stdDev st = 0%float
  /\ winRate st = 0%float
  /\ sharpeRatio st = nan.
Proof.
  intros Hp0 Hn0 Hfin Hnz Hc Hn Hmax st.
  assert (Hz : Forall (fun x => x = 0 \/ x = -0)%float
                 (returnsOf (map close ohlcv))).
  { eapply Forall_impl; [|apply (returnsOf_constant _ c)].
    - cbn. intros r ->. now apply constant_return.
    - now apply Forall_map. }
  assert (Hlen : length (returnsOf (map close ohlcv)) = length ohlcv - 1)
    by (now rewrite returnsOf_length, length_map).
  assert (Hdiv : (0 / length_number (returnsOf (map close ohlcv)))%float
                 = 0%float).
  { unfold length_number. rewrite Hlen. apply zero_div_length; lia. }
  assert (Havg : avgReturn st = 0%float).
  { unfold st, calculatePriceStats. cbn [avgReturn].
    now rewrite sum_of_zeros. }
  assert (Hstd : stdDev st = 0%float).
  { unfold st, calculatePriceStats. cbn [stdDev].
    rewrite sum_of_zeros, Hdiv by assumption.
    rewrite squares_of_zeros, Hdiv by assumption. reflexivity. }
  assert (Hsharpe : sharpeRatio st = nan).
  { change (sharpeRatio st)
      with (avgReturn st / stdDev st * Math_sqrt 252)%float.
    rewrite Havg, Hstd. reflexivity. }
  repeat split; try assumption.
  unfold st, calculatePriceStats. cbn [winRate].
  rewrite no_gain_among_zeros by assumption.
  change (length_number (@nil float)) with 0%float.
  rewrite Hdiv. reflexivity.
Qed.

Lemma C6_witness_three_bars_at_five :
  (Sample.pow_by_squaring 0%float 2%float = 0%float
   /\ Sample.pow_by_squaring (-0)%float 2%float = 0%float
   /\ is_finite 5%float = true /\ is_zero 5%float = false
   /\ Forall (fun d => close d = 5%float) Sample.constant5
   /\ 2 <= length Sample.constant5
   /\ (Z.of_nat (length Sample.constant5) <= MAX_ARRAY_LENGTH)%Z)
  /\ let st := calculatePriceStats Sample.pow_by_squaring Sample.constant5 in
     avgReturn st = 0%float
     /\ stdDev st = 0%float
     /\ winRate st = 0%float
     /\ sharpeRatio st = nan.
Proof.
  assert (H1 : Sample.pow_by_squaring 0%float 2%float = 0%float)
    by reflexivity.
  assert (H2 : Sample.pow_by_squaring (-0)%float 2%float = 0%float)
    by reflexivity.
  assert (H3 : is_finite 5%float = true) by reflexivity.
  assert (H4 : is_zero 5%float = false) by reflexivity.
  assert (H5 : Forall (fun d => close d = 5%float) Sample.constant5)
    by (repeat constructor).
  assert (H6 : 2 <= length Sample.constant5) by (cbn; lia).
  assert (H7 : (Z.of_nat (length Sample.constant5) <= MAX_ARRAY_LENGTH)%Z)
    by (unfold MAX_ARRAY_LENGTH; cbn; lia).
  split; [repeat split; assumption|].
  exact (C6_constant_price_statistics Sample.pow_by_squaring Sample.constant5
           5%float H1 H2 H3 H4 H5 H6 H7).
Defined.

(** C10. On fewer than two candles [calculatePriceStats], a total
    function, has no return to work on: [avgReturn], [stdDev], [winRate]
    and [sharpeRatio] are NaN, [maxReturn] is [-Infinity] and [minReturn]
    is [+Infinity]. *)
Theorem C10_fewer_than_two_candles
  (Math_pow : number -> number -> number) (ohlcv : list OHLCV) :
  length ohlcv < 2 ->
  returnsOf (map close ohlcv) = []
  /\ calculatePriceStats Math_pow ohlcv
     = {| avgReturn := nan; stdDev := nan; sharpeRatio := nan;
          maxReturn := neg_infinity; minReturn := infinity;
          winRate := nan |}.
Proof.
  intros Hn. destruct ohlcv as [|d [|d' rest]]; cbn in Hn; try lia;
    repeat split.
Qed.

Lemma C10_witness_one_candle :
  length [Sample.bar 1 6 4 5] < 2
  /\ returnsOf (map close [Sample.bar 1 6 4 5]) = []
  /\ calculatePriceStats Sample.pow_by_squaring [Sample.bar 1 6 4 5]
     = {| avgReturn := nan; stdDev := nan; sharpeRatio := nan;
          maxReturn := neg_infinity; minReturn := infinity;
          winRate := nan |}.
Proof.
  split; [cbn; lia|].
  apply (C10_fewer_than_two_candles Sample.pow_by_squaring
           [Sample.bar 1 6 4 5]).
  cbn; lia.
Defined.

(* ================================================================== *)
(** * The sample runs *)
(* ================================================================== *)

(** The seven sample bars, with lookback 1 and threshold 0.02. *)
Example drifting_candidates :
  candidates Sample.drifting 1
  = [ {| price := 100; type := resistance; strength := 1 |};
      {| price := 103; type := resistance; strength := 1 |};
      {| price := 101.9; type := support; strength := 1 |} ]%float.
Proof. vm_compute. reflexivity. Qed.

Example drifting_levels :
  findSupportResistance Sample.drifting 1 default_threshold
  = [ {| price := 100.95; type := resistance; strength := 2 |};
      {| price := 103; type := resistance; strength := 1 |} ]%float.
Proof. vm_compute. reflexivity. Qed.

Example drifting_levels_clustered_again :
  cluster default_threshold
    (findSupportResistance Sample.drifting 1 default_threshold)
  = [ {| price := 101.97499999999999; type := resistance;
         strength := 3 |} ]%float.
Proof. vm_compute. reflexivity. Qed.

Example flat_zero_sma :
  last_elem (calculateSMA Sample.flat_zero default_shortPeriod) = Some 0%float
  /\ last_elem (calculateSMA Sample.flat_zero default_longPeriod) = Some 0%float
  /\ detectTrend Sample.flat_zero default_shortPeriod default_longPeriod
     = unknown.
Proof. vm_compute. auto. Qed.

Example rising_statistics :
  calculatePriceStats Sample.pow_by_squaring Sample.rising
  = {| avgReturn := 12.979797979797979;
       stdDev := 15.360345379666253;
       sharpeRatio := 13.414275528412706;
       maxReturn := 27.27272727272727;
       minReturn := -8.3333333333333321;
       winRate := 66.666666666666657 |}%float.
Proof. vm_compute. reflexivity. Qed.

(** C1, as stated, fails on the seven sample bars with lookback 1 and
    threshold 0.02: the candidates 100, 103, 101.9 cluster to 100.95
    (strength 2) and 103, and clustering these two again merges them. *)
Lemma C1_counterexample_second_pass_merges : ~ Spec.clustering_idempotent.
Proof.
  intros H.
  specialize (H default_threshold (candidates Sample.drifting 1)).
  vm_compute in H. discriminate.
Qed.

Lemma C4_witness_seven_bars :
  (Forall (fun x => is_nan x = false) (map high Sample.drifting)
   /\ Forall (fun x => is_nan x = false) (map low Sample.drifting))
  /\ (forall i, In i (localMaxima (map high Sample.drifting) 1)
                <-> Spec.strictMaxAt (map high Sample.drifting) 1 i)
  /\ (forall i, In i (localMinima (map low Sample.drifting) 1)
                <-> Spec.strictMinAt (map low Sample.drifting) 1 i)
  /\ candidates Sample.drifting 1
     = map (fun i => {| price := get (map high Sample.drifting) i;
                        type := resistance; strength := 1 |})
           (localMaxima (map high Sample.drifting) 1)
       ++ map (fun i => {| price := get (map low Sample.drifting) i;
                           type := support; strength := 1 |})
              (localMinima (map low Sample.drifting) 1)
  /\ In 1 (localMaxima (map high Sample.drifting) 1)
  /\ In 4 (localMinima (map low Sample.drifting) 1).
Proof.
  assert (Hh : Forall (fun x => is_nan x = false) (map high Sample.drifting))
    by (repeat constructor).
  assert (Hl : Forall (fun x => is_nan x = false) (map low Sample.drifting))
    by (repeat constructor).
  split; [split; assumption|].
  destruct (C4_candidates_are_strict_window_extrema Sample.drifting 1)
    as (Hmax & Hmin & Heq & _).
  split; [exact (Hmax Hh)|]. split; [exact (Hmin Hl)|].
  split; [exact Heq|]. split; vm_compute; tauto.
Defined.

(* ================================================================== *)
(** * The sign of a difference *)
(* ================================================================== *)

Section DifferenceSign.

Local Open Scope Z_scope.

Lemma digits2_pos_upper (p : positive) : Zpos p < 2 ^ Zpos (digits2_pos p).
Proof.
  induction p as [p IH|p IH|]; cbn [digits2_pos]; try (cbn; lia);
    rewrite Pos2Z.inj_succ, Z.pow_succ_r by lia; lia.
Qed.

Lemma iter_xO_mul (p d : positive) :
  Zpos (Pos.iter xO p d) = Zpos p * 2 ^ Zpos d.
Proof.
  induction d as [|d IH] using Pos.peano_ind.
  - cbn. lia.
  - rewrite Pos.iter_succ, Pos2Z.inj_succ, Z.pow_succ_r by lia.
    rewrite Pos2Z.inj_xO, IH. lia.
Qed.

Lemma shr_1_m (mrs : shr_record) :
  0 <= shr_m mrs -> shr_m (shr_1 mrs) = shr_m mrs / 2.
Proof.
  destruct mrs as [m r s]. cbn [shr_m]. intros Hm.
  destruct m as [|[p|p|]|p]; cbn [shr_1 shr_m]; try lia; try reflexivity.
  - rewrite Pos2Z.inj_xI. apply Z.div_unique with 1; lia.
  - rewrite Pos2Z.inj_xO. apply Z.div_unique with 0; lia.
Qed.

Lemma iter_pos_shr_1_m (n : positive) (mrs : shr_record) :
  0 <= shr_m mrs ->
  shr_m (iter_pos shr_1 n mrs) = shr_m mrs / 2 ^ Zpos n.
Proof.
  revert mrs. induction n as [n IH|n IH|]; intros mrs Hm; cbn [iter_pos].
  - assert (H1 : 0 <= shr_m (shr_1 mrs)) by (rewrite shr_1_m by lia; apply Z.div_pos; lia).
    assert (H2 : 0 <= shr_m (iter_pos shr_1 n (shr_1 mrs)))
      by (rewrite IH by lia; apply Z.div_pos; [lia|apply Z.pow_pos_nonneg; lia]).
    rewrite IH, IH, shr_1_m by lia.
    rewrite !Z.div_div by (try apply Z.pow_pos_nonneg; lia).
    f_equal. rewrite Pos2Z.inj_xI, Z.pow_add_r, Z.pow_mul_r by lia.
    change (2 ^ 2) with 4. change (2 ^ 1) with 2.
    replace (4 ^ Zpos n) with (2 ^ Zpos n * 2 ^ Zpos n).
    + lia.
    + rewrite <- Z.pow_add_r by lia. replace (Zpos n + Zpos n) with (2 * Zpos n) by lia.
      rewrite Z.pow_mul_r by lia. reflexivity.
  - assert (H2 : 0 <= shr_m (iter_pos shr_1 n mrs))
      by (rewrite IH by lia; apply Z.div_pos; [lia|apply Z.pow_pos_nonneg; lia]).
    rewrite IH, IH by lia.
    rewrite !Z.div_div by (try apply Z.pow_pos_nonneg; lia).
    f_equal. rewrite Pos2Z.inj_xO.
    rewrite <- Z.pow_add_r by lia. f_equal. lia.
  - rewrite shr_1_m by lia. reflexivity.
Qed.

Lemma shr_record_of_loc_m (m : Z) (l : location) :
  shr_m (shr_record_of_loc m l) = m.
Proof. destruct l as [|[| |]]; reflexivity. Qed.

Lemma shr_fexp_pos (m e : Z) (l : location) :
  0 < m -> -1074 <= e ->
  0 < shr_m (fst (shr_fexp prec emax m e l))
  /\ -1074 <= snd (shr_fexp prec emax m e l).
Proof.
  intros Hm He. unfold shr_fexp, shr.
  destruct m as [|p|p]; try lia. cbn [Zdigits2].
  pose proof (digits2_pos_lower p) as Hl.
  destruct (fexp prec emax (Zpos (digits2_pos p) + e) - e) as [|k|k] eqn:Hn;
    cbn [fst snd]; rewrite ?shr_record_of_loc_m; try (split; lia).
  unfold fexp, SpecFloat.emin, prec, emax in Hn.
  rewrite iter_pos_shr_1_m by (rewrite shr_record_of_loc_m; lia).
  rewrite shr_record_of_loc_m. split; [|lia].
  apply Z.div_str_pos. split; [apply Z.pow_pos_nonneg; lia|].
  apply Z.le_trans with (2 ^ (Zpos (digits2_pos p) - 1)); [|assumption].
  apply Z.pow_le_mono_r; lia.
Qed.

Lemma round_nearest_even_pos (m : Z) (l : location) :
  0 < m -> 0 < round_nearest_even m l.
Proof.
  intros Hm. destruct l as [|[| |]]; cbn [round_nearest_even]; try lia.
  destruct (Z.even m); lia.
Qed.

Lemma binary_round_aux_sign (s : bool) (m e : Z) (l : location) :
  0 < m -> -1074 <= e -> has_sign s (binary_round_aux prec emax s m e l).
Proof.
  intros Hm He. unfold binary_round_aux.
  destruct (shr_fexp_pos m e l Hm He) as [H1 H2].
  destruct (shr_fexp prec emax m e l) as [mrs' e'] eqn:E1. cbn [fst snd] in *.
  pose proof (round_nearest_even_pos (shr_m mrs') (loc_of_shr_record mrs') H1) as Hr.
  destruct (shr_fexp_pos _ e' loc_Exact Hr H2) as [H3 H4].
  destruct (shr_fexp prec emax _ e' loc_Exact) as [mrs'' e''] eqn:E2.
  cbn [fst snd] in *.
  destruct (shr_m mrs'') as [|q|q]; try lia.
  destruct (e'' <=? emax - prec); reflexivity.
Qed.

Lemma binary_round_sign (s : bool) (m : positive) (e : Z) :
  -1074 <= e -> has_sign s (binary_round prec emax s m e).
Proof.
  intros He. unfold binary_round, shl_align.
  assert (Hf : -1074 <= fexp prec emax (Zpos (digits2_pos m) + e))
    by (unfold fexp, SpecFloat.emin, prec, emax; lia).
  destruct (fexp prec emax (Zpos (digits2_pos m) + e) - e);
    apply binary_round_aux_sign; lia.
Qed.

Lemma binary_normalize_sign (d e : Z) :
  -1074 <= e ->
  match d with
  | Z0 => binary_normalize prec emax d e false = S754_zero false
  | Zpos _ => has_sign false (binary_normalize prec emax d e false)
  | Zneg _ => has_sign true (binary_normalize prec emax d e false)
  end.
Proof.
  intros He. destruct d; cbn [binary_normalize];
    [reflexivity|now apply binary_round_sign..].
Qed.

Lemma bounded_facts (m : positive) (e : Z) :
  bounded prec emax m e = true ->
  -1074 <= e <= 971 /\ Zpos m < 2 ^ 53 /\ (-1074 < e -> 2 ^ 52 <= Zpos m).
Proof.
  unfold bounded, canonical_mantissa, fexp, SpecFloat.emin, prec, emax.
  intros H. apply andb_true_iff in H. destruct H as [Hc He].
  apply Z.eqb_eq in Hc. apply Z.leb_le in He.
  pose proof (digits2_pos_lower m) as Hl.
  pose proof (digits2_pos_upper m) as Hu.
  destruct (Z.eq_dec (Zpos (digits2_pos m)) 53) as [E|E].
  - rewrite E in *. change (53 - 1) with 52 in Hl. repeat split; lia.
  - assert (Hd : Zpos (digits2_pos m) < 53) by lia.
    assert (2 ^ Zpos (digits2_pos m) <= 2 ^ 53) by (apply Z.pow_le_mono_r; lia).
    repeat split; lia.
Qed.

Lemma shl_align_fst (m : positive) (e ez : Z) :
  ez <= e -> Zpos (fst (shl_align m e ez)) = Zpos m * 2 ^ (e - ez).
Proof.
  intros H. unfold shl_align.
  destruct (ez - e) as [|d|d] eqn:E; cbn [fst]; try lia.
  - replace (e - ez) with 0 by lia. lia.
  - rewrite iter_xO_mul. f_equal. f_equal. lia.
Qed.

(** The aligned difference of two valid finite values has the sign of
    their comparison. *)
Lemma aligned_difference_sign (sx sy : bool) (mx my : positive) (ex ey : Z) :
  bounded prec emax mx ex = true -> bounded prec emax my ey = true ->
  let ez := Z.min ex ey in
  let D := cond_Zopp sx (Zpos (fst (shl_align mx ex ez)))
           - cond_Zopp sy (Zpos (fst (shl_align my ey ez))) in
  (D < 0 <-> lex_lt (rank (S754_finite sx mx ex)) (rank (S754_finite sy my ey)))
  /\ (0 < D <-> lex_lt (rank (S754_finite sy my ey)) (rank (S754_finite sx mx ex))).
Proof.
  intros Hx Hy ez D. subst D.
  destruct (bounded_facts mx ex Hx) as (Hex & Hmx & Hnx).
  destruct (bounded_facts my ey Hy) as (Hey & Hmy & Hny).
  rewrite !shl_align_fst by (subst ez; lia).
  change (2 ^ 53) with 9007199254740992 in *.
  change (2 ^ 52) with 4503599627370496 in *.
  destruct (Z.lt_trichotomy ex ey) as [Hlt|[Heq|Hgt]].
  - replace ez with ex by (subst ez; lia).
    replace (ex - ex) with 0 by lia. change (2 ^ 0) with 1.
    assert (HK : 2 <= 2 ^ (ey - ex))
      by (change 2 with (2 ^ 1) at 1; apply Z.pow_le_mono_r; lia).
    assert (HY : Zpos my * 2 <= Zpos my * 2 ^ (ey - ex))
      by (apply Z.mul_le_mono_nonneg_l; lia).
    specialize (Hny ltac:(lia)).
    destruct sx, sy; cbn [cond_Zopp rank lex_lt]; lia.
  - subst ey. replace ez with ex by (subst ez; lia).
    replace (ex - ex) with 0 by lia. change (2 ^ 0) with 1.
    destruct sx, sy; cbn [cond_Zopp rank lex_lt]; lia.
  - replace ez with ey by (subst ez; lia).
    replace (ey - ey) with 0 by lia. change (2 ^ 0) with 1.
    assert (HK : 2 <= 2 ^ (ex - ey))
      by (change 2 with (2 ^ 1) at 1; apply Z.pow_le_mono_r; lia).
    assert (HX : Zpos mx * 2 <= Zpos mx * 2 ^ (ex - ey))
      by (apply Z.mul_le_mono_nonneg_l; lia).
    specialize (Hnx ltac:(lia)).
    destruct sx, sy; cbn [cond_Zopp rank lex_lt]; lia.
Qed.

Lemma has_sign_ltb_zero (s : bool) (x : spec_float) :
  has_sign s x ->
  SFltb x (S754_zero false) = s /\ SFltb (S754_zero false) x = negb s.
Proof.
  destruct x as [| s'| |s' m e]; cbn [has_sign]; try tauto;
    intros ->; destruct s; split; reflexivity.
Qed.

Lemma SFltb_rank (x y : spec_float) :
  x <> S754_nan -> y <> S754_nan ->
  (SFltb x y = true <-> lex_lt (rank x) (rank y)).
Proof.
  intros Hx Hy. unfold SFltb. rewrite (SFcompare_rank _ _ Hx Hy), <- lex_cmp_Lt.
  destruct (lex_cmp _ _); split; congruence.
Qed.

Lemma bool_eq_iff (a b : bool) : (a = true <-> b = true) -> a = b.
Proof. destruct a, b; intros [H1 H2]; auto; try (symmetry; auto). Qed.

(** The sign of a difference is the comparison of its operands. *)
Lemma SF64sub_sign (x y : spec_float) :
  valid_binary x = true -> valid_binary y = true ->
  x <> S754_nan -> y <> S754_nan ->
  SFltb (SF64sub x y) (S754_zero false) = SFltb x y
  /\ SFltb (S754_zero false) (SF64sub x y) = SFltb y x.
Proof.
  intros Vx Vy Nx Ny.
  destruct x as [sx|sx| |sx mx ex], y as [sy|sy| |sy my ey]; try congruence;
    try (destruct sx, sy; split; reflexivity);
    try (destruct sx; split; reflexivity);
    try (destruct sy; split; reflexivity).
  cbn [valid_binary] in Vx, Vy.
  destruct (aligned_difference_sign sx sy mx my ex ey Vx Vy) as [Hneg Hpos].
  cbv zeta in Hneg, Hpos.
  destruct (bounded_facts mx ex Vx) as (Hex & _ & _).
  destruct (bounded_facts my ey Vy) as (Hey & _ & _).
  assert (Hxy : SFltb (S754_finite sx mx ex) (S754_finite sy my ey) = true
                <-> cond_Zopp sx (Zpos (fst (shl_align mx ex (Z.min ex ey))))
                    - cond_Zopp sy (Zpos (fst (shl_align my ey (Z.min ex ey)))) < 0)
    by (rewrite SFltb_rank by congruence; symmetry; exact Hneg).
  assert (Hyx : SFltb (S754_finite sy my ey) (S754_finite sx mx ex) = true
                <-> 0 < cond_Zopp sx (Zpos (fst (shl_align mx ex (Z.min ex ey))))
                        - cond_Zopp sy (Zpos (fst (shl_align my ey (Z.min ex ey)))))
    by (rewrite SFltb_rank by congruence; symmetry; exact Hpos).
  unfold SF64sub. cbn [SFsub].
  pose proof (binary_normalize_sign
                (cond_Zopp sx (Zpos (fst (shl_align mx ex (Z.min ex ey))))
                 - cond_Zopp sy (Zpos (fst (shl_align my ey (Z.min ex ey)))))
                (Z.min ex ey) ltac:(lia)) as Hs.
  destruct (SFltb (S754_finite sx mx ex) (S754_finite sy my ey)) eqn:Bxy;
    destruct (SFltb (S754_finite sy my ey) (S754_finite sx mx ex)) eqn:Byx;
    destruct (cond_Zopp sx (Zpos (fst (shl_align mx ex (Z.min ex ey))))
              - cond_Zopp sy (Zpos (fst (shl_align my ey (Z.min ex ey)))))
      as [|d|d] eqn:ED;
    try (exfalso; destruct Hxy as [Hxy1 Hxy2], Hyx as [Hyx1 Hyx2];
         first [ specialize (Hxy1 eq_refl); lia
               | specialize (Hyx1 eq_refl); lia
               | specialize (Hxy2 ltac:(lia)); discriminate
               | specialize (Hyx2 ltac:(lia)); discriminate ]).
  all: try (rewrite Hs; split; reflexivity).
  all: try (destruct (has_sign_ltb_zero _ _ Hs) as [-> ->]; split; reflexivity).
Qed.

Local Open Scope float_scope.

(** For numbers other than NaN, [b - a] is negative exactly when
    [b < a] and positive exactly when [a < b]. *)
Lemma sub_sign (a b : float) :
  is_nan a = false -> is_nan b = false ->
  (b - a <? 0) = (b <? a) /\ (0 <? b - a) = (a <? b).
Proof.
  intros Ha Hb. rewrite !ltb_spec, sub_spec.
  change (Prim2SF 0) with (S754_zero false).
  apply SF64sub_sign; try apply Prim2SF_valid; now apply is_nan_Prim2SF.
Qed.

End DifferenceSign.

(* ================================================================== *)
(** * The server *)
(* ================================================================== *)

Section ServerFacts.

Import Server.
Local Open Scope string_scope.

(** X1. [validateApiKey] returns the key exactly when the variable is set
    to a string of 32 to 128 characters, and returns it unchanged; an
    unset variable and the empty string are both reported as "not set";
    every other length is reported as an invalid format. *)
Theorem X1_validateApiKey_outcomes (BINANCE_API_KEY : option string) :
  (forall key,
      validateApiKey BINANCE_API_KEY = inl key
      <-> BINANCE_API_KEY = Some key
          /\ 32 <= String.length key <= 128)
  /\ (validateApiKey BINANCE_API_KEY
      = inr (Error "BINANCE_API_KEY environment variable not set")
      <-> BINANCE_API_KEY = None \/ BINANCE_API_KEY = Some "")
  /\ (validateApiKey BINANCE_API_KEY
      = inr (Error "Invalid BINANCE_API_KEY format")
      <-> exists key,
            BINANCE_API_KEY = Some key /\ key <> ""
            /\ (String.length key < 32 \/ 128 < String.length key)).
Proof.
  unfold validateApiKey.
  destruct BINANCE_API_KEY as [apiKey|].
  - destruct (String.eqb_spec apiKey "") as [->|Hne].
    + split; [|split].
      * intros key. split; [discriminate|]. intros [[= <-] H]. cbn in H. lia.
      * split; auto.
      * split; [discriminate|]. intros (key & [= <-] & H & _). congruence.
    + destruct ((String.length apiKey <? 32) || (128 <? String.length apiKey))
        eqn:Hbad.
      * assert (Hlen : String.length apiKey < 32 \/ 128 < String.length apiKey).
        { apply orb_true_iff in Hbad.
          destruct Hbad as [H|H]; apply Nat.ltb_lt in H; auto. }
        split; [|split].
        -- intros key. split; [discriminate|]. intros [[= <-] H]. lia.
        -- split; [discriminate|]. intros [H|[= H]]; congruence.
        -- split; [|reflexivity]. intros _. exists apiKey. auto.
      * apply orb_false_iff in Hbad. destruct Hbad as [Hs Hl].
        apply Nat.ltb_ge in Hs, Hl.
        split; [|split].
        -- intros key. split.
           ++ intros [= <-]. split; [reflexivity|lia].
           ++ intros [[= <-] _]. reflexivity.
        -- split; [discriminate|]. intros [H|[= H]]; congruence.
        -- split; [discriminate|]. intros (key & [= <-] & _ & H). lia.
  - split; [|split].
    + intros key. split; [discriminate|]. intros [H _]. discriminate.
    + split; auto.
    + split; [discriminate|]. intros (key & H & _). discriminate.
Qed.

Lemma sanitizeError_of_Error (msg : string) :
  sanitizeError (Error msg) = "An error occurred while fetching data.".
Proof. reflexivity. Qed.

(** X2. Whatever was thrown, [sanitizeError] returns one of five fixed
    messages; the message of the error never enters the result, and an
    [Error] made by [new Error(...)] always gives the generic one. *)
Theorem X2_sanitizeError_fixed_messages :
  (forall error, In (sanitizeError error) sanitizedMessages)
  /\ (forall error msg,
        sanitizeError {| response := response error; code := code error;
                         message := msg |}
        = sanitizeError error)
  /\ (forall msg,
        sanitizeError (Error msg) = "An error occurred while fetching data.").
Proof.
  split; [|split].
  - intros error. unfold sanitizeError, sanitizedMessages.
    destruct (status_is error 401); [cbn; tauto|].
    destruct (status_is error 429); [cbn; tauto|].
    destruct (status_at_least error 500); [cbn; tauto|].
    destruct (code_is error "ECONNREFUSED" || code_is error "ETIMEDOUT");
      cbn; tauto.
  - reflexivity.
  - reflexivity.
Qed.

Local Open Scope float_scope.

Lemma limitOr_truthy (limit : option number) (dflt : number) :
  falsy dflt = false -> falsy (limitOr limit dflt) = false.
Proof.
  intros Hd. unfold limitOr.
  destruct limit as [l|]; cbn [falsy_opt]; [|assumption].
  destruct (falsy l) eqn:Hl; assumption.
Qed.

(** [Math.min(x, 1000)] for a truthy [x]. *)
Lemma Math_min_with_1000 (x : number) :
  falsy x = false ->
  Math_min [x; 1000] = if 1000 <? x then 1000 else x.
Proof.
  intros Hx. unfold falsy in Hx. apply orb_false_iff in Hx.
  destruct Hx as [Hz Hn].
  unfold Math_min. cbn [Math_min_from]. rewrite Hn.
  assert (Hnz : is_neg_zero x = false) by (unfold is_neg_zero; now rewrite Hz).
  rewrite Hnz. cbn [andb].
  change (is_nan 1000) with false. change (is_neg_zero 1000) with false.
  cbn [andb].
  destruct (x <? infinity) eqn:Hinf.
  - destruct (1000 <? x); reflexivity.
  - assert (Hx : x = infinity).
    { apply infinity_leb. apply not_ltb_leb; auto. }
    subst x. reflexivity.
Qed.

Lemma clampLimit_truthy (l : number) :
  falsy l = false ->
  clampLimit (Some l) = if 1000 <? l then 1000 else l.
Proof.
  intros Hl. unfold clampLimit, limitOr. cbn [falsy_opt]. rewrite Hl.
  now apply Math_min_with_1000.
Qed.

Lemma clampLimit_falsy (limit : option number) :
  falsy_opt limit = true -> clampLimit limit = 500.
Proof. intros Hf. unfold clampLimit, limitOr. rewrite Hf. reflexivity. Qed.

Lemma clampLimit_le_1000 (limit : option number) :
  (clampLimit limit <=? 1000) = true.
Proof.
  destruct (falsy_opt limit) eqn:Hf; [now rewrite clampLimit_falsy|].
  destruct limit as [l|]; [|discriminate]. cbn [falsy_opt] in Hf.
  rewrite (clampLimit_truthy l Hf).
  destruct (1000 <? l) eqn:Hlt; [reflexivity|].
  unfold falsy in Hf. apply orb_false_iff in Hf.
  apply not_ltb_leb; tauto.
Qed.

(** X3. The limit sent to Binance, [Math.min(args.limit || 500, 1000)],
    is never NaN, never zero and never above 1000, whatever number is
    passed; an absent, zero or NaN limit gives 500, a limit of at most
    1000 is passed through, and a larger one gives 1000. *)
Theorem X3_clampLimit_bounds (limit : option number) :
  (clampLimit limit <=? 1000) = true
  /\ falsy (clampLimit limit) = false
  /\ (falsy_opt limit = true -> clampLimit limit = 500)
  /\ (forall l, limit = Some l -> falsy l = false ->
                (l <=? 1000) = true -> clampLimit limit = l)
  /\ (forall l, limit = Some l -> (1000 <? l) = true ->
                clampLimit limit = 1000).
Proof.
  split; [apply clampLimit_le_1000|].
  split; [|split; [apply clampLimit_falsy|split]].
  - destruct (falsy_opt limit) eqn:Hf; [now rewrite clampLimit_falsy|].
    destruct limit as [l|]; [|discriminate]. cbn [falsy_opt] in Hf.
    rewrite (clampLimit_truthy l Hf).
    destruct (1000 <? l); [reflexivity|assumption].
  - intros l -> Hl Hle. rewrite (clampLimit_truthy l Hl).
    destruct (1000 <? l) eqn:Hlt; [|reflexivity].
    apply ltb_true_not_nan in Hlt as Hn. destruct Hn as [_ Hn].
    apply leb_false_ltb in Hlt; [congruence|assumption|reflexivity].
  - intros l -> Hlt.
    assert (Hl : falsy l = false).
    { unfold falsy. apply orb_false_iff.
      destruct (ltb_true_not_nan _ _ Hlt) as [_ Hn]. split; [|assumption].
      destruct (l =? 0) eqn:Hz; [|reflexivity].
      apply eqb_leb in Hz. destruct Hz as [Hz _].
      apply ltb_leb in Hlt.
      pose proof (leb_trans _ _ _ Hlt Hz) as Habs. discriminate Habs. }
    rewrite (clampLimit_truthy l Hl). now rewrite Hlt.
Qed.

Local Close Scope float_scope.

Variable Data : Type.
Variable JSON_stringify : Data -> string.
Variable JSON_stringify_symbols : list string -> string.

(** X4. [get_historical_trades] sends no request unless the API key
    passes [validateApiKey]: otherwise its result is the same failure
    whatever the network would answer, and the text names neither the
    missing nor the malformed key.  With an accepted key it sends one
    request, which carries the key in the [X-MBX-APIKEY] header and a
    limit of at most 1000, and its result is decided by the answer. *)
Theorem X4_historical_trades_key_gate
  (BINANCE_API_KEY : option string) (symbol : string)
  (limit fromId : option number) :
  match validateApiKey BINANCE_API_KEY with
  | inr _ =>
      forall axios_get,
        get_historical_trades Data JSON_stringify axios_get BINANCE_API_KEY
          symbol limit fromId
        = {| text := "Failed to get historical trades: An error occurred while fetching data.";
             isError := true |}
  | inl apiKey =>
      exists request n,
        headers request = [("X-MBX-APIKEY", apiKey)]
        /\ In ("limit", PNumber n) (params request)
        /\ (n <=? 1000)%float = true
        /\ forall axios_get,
             get_historical_trades Data JSON_stringify axios_get
               BINANCE_API_KEY symbol limit fromId
             = match axios_get request with
               | inl data => {| text := JSON_stringify data; isError := false |}
               | inr error =>
                   {| text := String.append "Failed to get historical trades: "
                                (sanitizeError error);
                      isError := true |}
               end
  end.
Proof.
  destruct (validateApiKey BINANCE_API_KEY) as [apiKey|error] eqn:Hkey.
  - exists (historicalTradesRequest apiKey symbol limit fromId),
      (clampLimit limit).
    split; [reflexivity|]. split; [cbn; tauto|].
    split; [apply clampLimit_le_1000|].
    intros axios_get. unfold get_historical_trades. rewrite Hkey. reflexivity.
  - intros axios_get. unfold get_historical_trades. rewrite Hkey.
    unfold validateApiKey in Hkey.
    destruct BINANCE_API_KEY as [k|].
    + destruct (String.eqb k ""); [injection Hkey as <-; reflexivity|].
      destruct ((String.length k <? 32) || (128 <? String.length k));
        [injection Hkey as <-; reflexivity|discriminate].
    + injection Hkey as <-. reflexivity.
Qed.

Lemma badTimeRange_true (startTime endTime : option number) :
  badTimeRange startTime endTime = true
  <-> exists s e,
        startTime = Some s /\ endTime = Some e
        /\ falsy s = false /\ falsy e = false /\ (e <=? s)%float = true.
Proof.
  unfold badTimeRange. split.
  - destruct startTime as [s|], endTime as [e|]; try discriminate.
    intros H. apply andb_true_iff in H. destruct H as [H He].
    apply andb_true_iff in H. destruct H as [Hs Hf].
    apply negb_true_iff in Hs, Hf. exists s, e. auto.
  - intros (s & e & -> & -> & Hs & He & Hle). now rewrite Hs, He, Hle.
Qed.

(** X5. [get_aggregate_trades] rejects a time range whose two ends are
    both given (and not zero) with the end not after the start: it sends
    no request, and its result is the same failure whatever the network
    would answer, with the generic message in place of "End time must be
    after start time".  In every other case it sends one request, with a
    limit of at most 1000 and the two times as given, and the answer
    decides the result. *)
Theorem X5_aggregate_trades_time_range_gate
  (symbol : string) (fromId startTime endTime limit : option number) :
  ((exists s e,
       startTime = Some s /\ endTime = Some e
       /\ falsy s = false /\ falsy e = false /\ (e <=? s)%float = true) ->
   forall axios_get,
     get_aggregate_trades Data JSON_stringify axios_get symbol fromId
       startTime endTime limit
     = {| text := "Failed to get aggregate trades: An error occurred while fetching data.";
          isError := true |})
  /\ (~ (exists s e,
           startTime = Some s /\ endTime = Some e
           /\ falsy s = false /\ falsy e = false /\ (e <=? s)%float = true) ->
      exists request n,
        In ("limit", PNumber n) (params request)
        /\ (n <=? 1000)%float = true
        /\ In ("startTime", optionalNumber startTime) (params request)
        /\ In ("endTime", optionalNumber endTime) (params request)
        /\ forall axios_get,
             get_aggregate_trades Data JSON_stringify axios_get symbol fromId
               startTime endTime limit
             = match axios_get request with
               | inl data => {| text := JSON_stringify data; isError := false |}
               | inr error =>
                   {| text := String.append "Failed to get aggregate trades: "
                                (sanitizeError error);
                      isError := true |}
               end).
Proof.
  split.
  - intros Hbad axios_get. apply badTimeRange_true in Hbad.
    unfold get_aggregate_trades. rewrite Hbad. reflexivity.
  - intros Hok.
    assert (Hb : badTimeRange startTime endTime = false).
    { destruct (badTimeRange startTime endTime) eqn:Hb; [|reflexivity].
      apply badTimeRange_true in Hb. contradiction. }
    exists (aggregateTradesRequest symbol fromId startTime endTime limit),
      (clampLimit limit).
    split; [cbn; tauto|]. split; [apply clampLimit_le_1000|].
    split; [cbn; tauto|]. split; [cbn; tauto|].
    intros axios_get. unfold get_aggregate_trades. rewrite Hb. reflexivity.
Qed.

(** X6. [get_24hr_ticker] rejects a call that gives both a (non-empty)
    [symbol] and a [symbols] array, without sending a request and with the
    generic message; otherwise it sends one request whose parameters are
    the symbol alone, or else the serialized array alone, or else
    nothing. *)
Theorem X6_ticker_symbol_or_symbols
  (symbol : option string) (symbols : option (list string)) :
  (hasSymbol symbol = true -> hasSymbols symbols = true ->
   forall axios_get,
     get_24hr_ticker Data JSON_stringify JSON_stringify_symbols axios_get
       symbol symbols
     = {| text := "Failed to get 24hr price statistics: An error occurred while fetching data.";
          isError := true |})
  /\ (hasSymbol symbol && hasSymbols symbols = false ->
      exists ps,
        ((exists s, symbol = Some s /\ s <> "" /\ symbols = None
                    /\ ps = [("symbol", PString s)])
         \/ (exists ss, hasSymbol symbol = false /\ symbols = Some ss
                        /\ ps = [("symbols", PString (JSON_stringify_symbols ss))])
         \/ (hasSymbol symbol = false /\ symbols = None /\ ps = []))
        /\ forall axios_get,
             get_24hr_ticker Data JSON_stringify JSON_stringify_symbols
               axios_get symbol symbols
             = match axios_get {| url := "/api/v3/ticker/24hr"; params := ps;
                                  headers := [] |} with
               | inl data => {| text := JSON_stringify data; isError := false |}
               | inr error =>
                   {| text := String.append
                                "Failed to get 24hr price statistics: "
                                (sanitizeError error);
                      isError := true |}
               end).
Proof.
  split.
  - intros Hs Hss axios_get. unfold get_24hr_ticker. rewrite Hs, Hss.
    reflexivity.
  - intros Hnot.
    exists (tickerParams JSON_stringify_symbols symbol symbols).
    split.
    + unfold tickerParams.
      destruct (hasSymbol symbol) eqn:Hs.
      * cbn [andb] in Hnot. destruct symbols; [discriminate|].
        destruct symbol as [s|]; [|discriminate]. left. exists s.
        repeat split; auto. cbn in Hs. apply negb_true_iff in Hs.
        now apply String.eqb_neq.
      * destruct symbols as [ss|].
        -- right. left. exists ss. auto.
        -- right. right. auto.
    + intros axios_get. unfold get_24hr_ticker. rewrite Hnot. reflexivity.
Qed.

(** X7. Whatever the arguments and whatever the network answers, a result
    flagged [isError] by these handlers has for text the handler's prefix
    followed by one of the five fixed messages. *)
Theorem X7_failures_show_fixed_messages
  (axios_get : Request -> Data + ErrorObject) :
  (forall key symbol limit fromId,
      let r := get_historical_trades Data JSON_stringify axios_get key symbol
                 limit fromId in
      isError r = true ->
      exists m, In m sanitizedMessages
                /\ text r = String.append "Failed to get historical trades: " m)
  /\ (forall symbol fromId startTime endTime limit,
        let r := get_aggregate_trades Data JSON_stringify axios_get symbol
                   fromId startTime endTime limit in
        isError r = true ->
        exists m, In m sanitizedMessages
                  /\ text r = String.append "Failed to get aggregate trades: " m)
  /\ (forall symbol symbols,
        let r := get_24hr_ticker Data JSON_stringify JSON_stringify_symbols
                   axios_get symbol symbols in
        isError r = true ->
        exists m, In m sanitizedMessages
                  /\ text r = String.append
                                "Failed to get 24hr price statistics: " m).
Proof.
  assert (Hmsg : forall error, In (sanitizeError error) sanitizedMessages).
  { intros error. unfold sanitizeError, sanitizedMessages.
    destruct (status_is error 401); [cbn; tauto|].
    destruct (status_is error 429); [cbn; tauto|].
    destruct (status_at_least error 500); [cbn; tauto|].
    destruct (code_is error "ECONNREFUSED" || code_is error "ETIMEDOUT");
      cbn; tauto. }
  assert (Hfailed : forall prefix error,
             exists m, In m sanitizedMessages
                       /\ text (failed prefix error) = String.append prefix m)
    by (intros prefix error; exists (sanitizeError error); split;
        [apply Hmsg|reflexivity]).
  assert (Hrespond : forall prefix request,
             isError (respond Data JSON_stringify axios_get prefix request) = true ->
             exists m, In m sanitizedMessages
                       /\ text (respond Data JSON_stringify axios_get prefix request)
                          = String.append prefix m).
  { intros prefix request. unfold respond.
    destruct (axios_get request) as [data|error]; [discriminate|].
    intros _. apply Hfailed. }
  split; [|split].
  - intros key symbol limit fromId. cbv zeta. unfold get_historical_trades.
    destruct (validateApiKey key); [apply Hrespond|intros _; apply Hfailed].
  - intros symbol fromId startTime endTime limit. cbv zeta.
    unfold get_aggregate_trades.
    destruct (badTimeRange startTime endTime);
      [intros _; apply Hfailed|apply Hrespond].
  - intros symbol symbols. cbv zeta. unfold get_24hr_ticker.
    destruct (hasSymbol symbol && hasSymbols symbols);
      [intros _; apply Hfailed|apply Hrespond].
Qed.

End ServerFacts.

(* ================================================================== *)
(** * The analysis tools *)
(* ================================================================== *)

Section SortedLists.

Context {A : Type}.
Variable R : A -> A -> Prop.

Lemma StronglySorted_filter (keep : A -> bool) (l : list A) :
  StronglySorted R l -> StronglySorted R (filter keep l).
Proof.
  induction 1 as [|x rest Hrest IH Hx]; cbn [filter]; [constructor|].
  destruct (keep x); [|assumption].
  constructor; [assumption|].
  rewrite Forall_forall in *. intros y Hy. apply filter_In in Hy.
  apply Hx. tauto.
Qed.

Lemma StronglySorted_firstn (n : nat) (l : list A) :
  StronglySorted R l -> StronglySorted R (firstn n l).
Proof.
  intros H. revert n. induction H as [|x rest Hrest IH Hx]; intros [|n];
    cbn [firstn]; try constructor; auto.
  now apply Forall_firstn.
Qed.

(** In a sorted list every element of a prefix is related to every
    element of the rest. *)
Lemma StronglySorted_firstn_skipn (n : nat) (l : list A) (x y : A) :
  StronglySorted R l -> In x (firstn n l) -> In y (skipn n l) -> R x y.
Proof.
  intros H. revert n. induction H as [|z rest Hrest IH Hz]; intros [|n];
    cbn [firstn skipn]; try (intros []; fail).
  intros [<-|Hx] Hy.
  - rewrite Forall_forall in Hz. apply Hz.
    rewrite <- (firstn_skipn n rest). apply in_or_app. now right.
  - now apply (IH n).
Qed.

End SortedLists.

Section AnalysisFacts.

Import Analysis.
Local Open Scope string_scope.
Local Open Scope float_scope.

Lemma above_70_not_below_30 (r : number) :
  (70 <? r) = true -> (r <? 30) = false.
Proof.
  intros H. destruct (r <? 30) eqn:Hlow; [|reflexivity].
  apply ltb_leb in Hlow.
  assert (H3070 : (30 <=? 70)%float = true) by reflexivity.
  pose proof (leb_trans r 30 70 Hlow H3070) as Hle.
  destruct (ltb_true_not_nan _ _ H) as [_ Hn].
  apply (leb_false_ltb r 70 Hn eq_refl) in H. congruence.
Qed.

(** X8. The RSI signal of [calculate_indicators] and the momentum of
    [analyze_market] are "unknown" exactly when the latest RSI is missing,
    zero or NaN (an RSI of 0, all losses, is not reported as oversold);
    otherwise "overbought" means RSI > 70, "oversold" RSI < 30 and
    "neutral" 30 <= RSI <= 70. *)
Theorem X8_rsiSignal_cases (currentRSI : option number) :
  (rsiSignal currentRSI = "unknown" <-> falsy_opt currentRSI = true)
  /\ (forall r, currentRSI = Some r -> falsy r = false ->
        (rsiSignal currentRSI = "overbought" <-> (70 <? r) = true)
        /\ (rsiSignal currentRSI = "oversold" <-> (r <? 30) = true)
        /\ (rsiSignal currentRSI = "neutral"
            <-> (30 <=? r) = true /\ (r <=? 70) = true))
  /\ rsiSignal (Some 0) = "unknown".
Proof.
  split; [|split; [|reflexivity]].
  - unfold rsiSignal. destruct (falsy_opt currentRSI) eqn:Hf; [tauto|].
    destruct currentRSI as [r|]; [|discriminate]. unfold gtb.
    destruct (70 <? r), (r <? 30); split; discriminate.
  - intros r -> Hr. unfold rsiSignal. cbn [falsy_opt]. rewrite Hr.
    unfold gtb. unfold falsy in Hr. apply orb_false_iff in Hr.
    destruct Hr as [_ Hn].
    destruct (70 <? r) eqn:Hhigh.
    + rewrite (above_70_not_below_30 r Hhigh).
      repeat split; try discriminate; try reflexivity.
      intros [_ Hle]. apply (leb_false_ltb r 70 Hn eq_refl) in Hhigh.
      congruence.
    + destruct (r <? 30) eqn:Hlow.
      * repeat split; try discriminate; try reflexivity.
        intros [Hge _]. apply (leb_false_ltb 30 r eq_refl Hn) in Hlow.
        congruence.
      * repeat split; try discriminate; try reflexivity.
        -- apply not_ltb_leb; auto.
        -- apply not_ltb_leb; auto.
Qed.

Variable Math_pow : number -> number -> number.

(** X9. With fewer than two candles [analyze_market] labels the
    volatility "low": the standard deviation is NaN, and NaN is neither
    above 2 nor above 1. *)
Theorem X9_short_history_volatility_low (ohlcv : list OHLCV) :
  (length ohlcv < 2)%nat ->
  is_nan (stdDev (calculatePriceStats Math_pow ohlcv)) = true
  /\ marketVolatility Math_pow ohlcv = "low".
Proof.
  intros Hn. destruct ohlcv as [|d [|d' rest]]; cbn in Hn; try lia;
    split; reflexivity.
Qed.

(** The standard deviation of a constant price. *)
Lemma constant_price_stdDev (ohlcv : list OHLCV) (c : number) :
  Math_pow 0 2 = 0 -> Math_pow (-0) 2 = 0 ->
  is_finite c = true -> is_zero c = false ->
  Forall (fun d => close d = c) ohlcv ->
  (2 <= length ohlcv)%nat ->
  (Z.of_nat (length ohlcv) <= MAX_ARRAY_LENGTH)%Z ->
  stdDev (calculatePriceStats Math_pow ohlcv) = 0.
Proof.
  intros Hp0 Hn0 Hfin Hnz Hc Hn Hmax.
  assert (Hz : Forall (fun x => x = 0 \/ x = -0)
                 (returnsOf (map close ohlcv))).
  { eapply Forall_impl; [|apply (returnsOf_constant _ c)].
    - cbn. intros r ->. now apply constant_return.
    - now apply Forall_map. }
  assert (Hlen : length (returnsOf (map close ohlcv)) = (length ohlcv - 1)%nat)
    by (now rewrite returnsOf_length, length_map).
  assert (Hdiv : 0 / length_number (returnsOf (map close ohlcv)) = 0).
  { unfold length_number. rewrite Hlen. apply zero_div_length; lia. }
  unfold calculatePriceStats. cbn [stdDev].
  rewrite sum_of_zeros, Hdiv by assumption.
  rewrite squares_of_zeros, Hdiv by assumption. reflexivity.
Qed.

(** X10. For at least two candles that all close at the same finite,
    nonzero price, [analyze_market] labels the volatility "low". *)
Theorem X10_constant_price_volatility_low (ohlcv : list OHLCV) (c : number) :
  Math_pow 0 2 = 0 -> Math_pow (-0) 2 = 0 ->
  is_finite c = true -> is_zero c = false ->
  Forall (fun d => close d = c) ohlcv ->
  (2 <= length ohlcv)%nat ->
  (Z.of_nat (length ohlcv) <= MAX_ARRAY_LENGTH)%Z ->
  marketVolatility Math_pow ohlcv = "low".
Proof.
  intros Hp0 Hn0 Hfin Hnz Hc Hn Hmax. unfold marketVolatility.
  now rewrite (constant_price_stdDev ohlcv c).
Qed.

Local Close Scope float_scope.

Lemma filter_type_support (levels : list Level) :
  Forall (fun l => type l = support) (filter isSupport levels).
Proof.
  apply Forall_forall. intros l Hl. apply filter_In in Hl.
  destruct Hl as [_ Hl]. unfold isSupport in Hl. now destruct (type l).
Qed.

Lemma filter_type_resistance (levels : list Level) :
  Forall (fun l => type l = resistance) (filter isResistance levels).
Proof.
  apply Forall_forall. intros l Hl. apply filter_In in Hl.
  destruct Hl as [_ Hl]. unfold isResistance in Hl. now destruct (type l).
Qed.

(** X11. The supports [analyze_market] reports are at most three, all of
    type support, in descending order of strength, and they are the
    strongest ones: they are the first three supports of
    [findSupportResistance(ohlcv)], and no support left out is stronger
    than one reported.  The same holds for the resistances. *)
Theorem X11_reported_levels_are_the_strongest (ohlcv : list OHLCV) :
  let levels := findSupportResistance ohlcv default_lookback default_threshold in
  (length (supportLevels ohlcv) <= 3
   /\ Forall (fun l => type l = support) (supportLevels ohlcv)
   /\ StronglySorted (fun a b => strength b <= strength a) (supportLevels ohlcv)
   /\ supportLevels ohlcv ++ skipn 3 (filter isSupport levels)
      = filter isSupport levels
   /\ forall reported omitted,
        In reported (supportLevels ohlcv) ->
        In omitted (skipn 3 (filter isSupport levels)) ->
        strength omitted <= strength reported)
  /\ (length (resistanceLevels ohlcv) <= 3
      /\ Forall (fun l => type l = resistance) (resistanceLevels ohlcv)
      /\ StronglySorted (fun a b => strength b <= strength a)
                        (resistanceLevels ohlcv)
      /\ resistanceLevels ohlcv ++ skipn 3 (filter isResistance levels)
         = filter isResistance levels
      /\ forall reported omitted,
           In reported (resistanceLevels ohlcv) ->
           In omitted (skipn 3 (filter isResistance levels)) ->
           strength omitted <= strength reported).
Proof.
  intros levels.
  assert (Hsorted : StronglySorted (fun a b => strength b <= strength a) levels)
    by apply sort_strengthDescending.
  unfold supportLevels, resistanceLevels. fold levels.
  split.
  - split; [apply firstn_le_length|].
    split; [apply Forall_firstn, filter_type_support|].
    split; [apply StronglySorted_firstn; now apply StronglySorted_filter|].
    split; [apply firstn_skipn|].
    intros reported omitted Hr Ho.
    apply (StronglySorted_firstn_skipn
             (fun a b => strength b <= strength a) 3
             (filter isSupport levels) reported omitted);
      auto; now apply StronglySorted_filter.
  - split; [apply firstn_le_length|].
    split; [apply Forall_firstn, filter_type_resistance|].
    split; [apply StronglySorted_firstn; now apply StronglySorted_filter|].
    split; [apply firstn_skipn|].
    intros reported omitted Hr Ho.
    apply (StronglySorted_firstn_skipn
             (fun a b => strength b <= strength a) 3
             (filter isResistance levels) reported omitted);
      auto; now apply StronglySorted_filter.
Qed.

End AnalysisFacts.

(* ================================================================== *)
(** * Ranking by Sharpe ratio *)
(* ================================================================== *)

Section RankingFacts.

Import Analysis.

Lemma Object_set_keys {V : Type} (obj : list (string * V)) (key : string)
  (value : V) :
  (In key (map fst obj) ->
   map fst (Object_set obj key value) = map fst obj)
  /\ (~ In key (map fst obj) ->
      map fst (Object_set obj key value) = map fst obj ++ [key]).
Proof.
  induction obj as [|[k v] rest [IHin IHout]]; cbn [Object_set map fst].
  - split; [intros []|reflexivity].
  - destruct (String.eqb_spec k key) as [->|Hne]; split; cbn [map fst In app].
    + reflexivity.
    + intros H. exfalso. apply H. now left.
    + intros [H|H]; [congruence|]. now rewrite IHin.
    + intros H. rewrite IHout; [reflexivity|]. intros Hin. apply H. now right.
Qed.

Lemma Object_set_values {V : Type} (P : V -> Prop) (obj : list (string * V))
  (key : string) (value : V) :
  Forall (fun e => P (snd e)) obj -> P value ->
  Forall (fun e => P (snd e)) (Object_set obj key value).
Proof.
  intros Hobj Hv. induction Hobj as [|[k v] rest Hk Hrest IH]; cbn [Object_set].
  - repeat constructor. exact Hv.
  - destruct (String.eqb k key); constructor; auto.
Qed.

Lemma Object_set_NoDup {V : Type} (obj : list (string * V)) (key : string)
  (value : V) :
  NoDup (map fst obj) -> NoDup (map fst (Object_set obj key value)).
Proof.
  intros Hnd. destruct (Object_set_keys obj key value) as [Hin Hout].
  destruct (in_dec String.string_dec key (map fst obj)) as [H|H].
  - now rewrite Hin.
  - rewrite Hout by assumption. apply NoDup_app; auto.
    + repeat constructor. intros [].
    + intros x Hx [<-|[]]. contradiction.
Qed.

Lemma Object_set_In {V : Type} (obj : list (string * V)) (key : string)
  (value : V) (s : string) :
  In s (map fst (Object_set obj key value)) <-> In s (map fst obj) \/ s = key.
Proof.
  destruct (Object_set_keys obj key value) as [Hin Hout].
  destruct (in_dec String.string_dec key (map fst obj)) as [H|H].
  - rewrite Hin by assumption. split; [tauto|]. intros [Hs| ->]; assumption.
  - rewrite Hout by assumption. rewrite in_app_iff. cbn. split.
    + intros [Hs|[<-|[]]]; auto.
    + intros [Hs| ->]; auto.
Qed.

Variable Math_pow : number -> number -> number.

Lemma performanceSymbols_keys (symbolData : list (string * list OHLCV)) :
  NoDup (map fst (performanceSymbols Math_pow symbolData))
  /\ forall s, In s (map fst (performanceSymbols Math_pow symbolData))
               <-> In s (map fst symbolData).
Proof.
  unfold performanceSymbols.
  assert (H : forall data acc,
             NoDup (map fst acc) ->
             NoDup (map fst
                      (fold_left
                         (fun symbols d =>
                            Object_set symbols (fst d)
                              (performanceEntry Math_pow (snd d)))
                         data acc))
             /\ forall s,
                  In s (map fst
                          (fold_left
                             (fun symbols d =>
                                Object_set symbols (fst d)
                                  (performanceEntry Math_pow (snd d)))
                             data acc))
                  <-> In s (map fst acc) \/ In s (map fst data)).
  { induction data as [|d rest IH]; intros acc Hacc; cbn [fold_left map].
    - split; [assumption|]. intros s. cbn. tauto.
    - destruct (IH (Object_set acc (fst d) (performanceEntry Math_pow (snd d)))
                  (Object_set_NoDup _ _ _ Hacc)) as [Hnd Hin].
      split; [assumption|]. intros s. rewrite Hin, Object_set_In. cbn [In].
      split; [intros [[H| ->]|H]|intros [H|[<-|H]]]; auto. }
  destruct (H symbolData [] (NoDup_nil _)) as [Hnd Hin].
  split; [assumption|]. intros s. rewrite Hin. cbn. tauto.
Qed.

Lemma performanceSymbols_values (P : Performance.Entry -> Prop)
  (symbolData : list (string * list OHLCV)) :
  Forall (fun d => P (performanceEntry Math_pow (snd d))) symbolData ->
  Forall (fun e => P (snd e)) (performanceSymbols Math_pow symbolData).
Proof.
  unfold performanceSymbols. intros H.
  assert (Hacc : Forall (fun e : string * Performance.Entry => P (snd e)) [])
    by constructor.
  revert Hacc. generalize (@nil (string * Performance.Entry)).
  induction H as [|d rest Hd _ IH]; intros acc Hacc; cbn [fold_left];
    [assumption|].
  apply IH. now apply Object_set_values.
Qed.

(** X12. The ranking [compare_symbols] returns under the metric
    "performance" names every requested symbol exactly once: it has no
    duplicates, even when a symbol is requested twice, and a symbol is in
    it exactly when it was requested. *)
Theorem X12_ranking_names_each_symbol_once
  (symbolData : list (string * list OHLCV)) :
  NoDup (ranking Math_pow symbolData)
  /\ (forall s, In s (ranking Math_pow symbolData)
                <-> In s (map fst symbolData))
  /\ length (ranking Math_pow symbolData) <= length symbolData.
Proof.
  destruct (performanceSymbols_keys symbolData) as [Hnd Hin].
  assert (Hperm : Permutation (ranking Math_pow symbolData)
                    (map fst (performanceSymbols Math_pow symbolData))).
  { unfold ranking, rankedEntries, sortByNumber.
    apply Permutation_map, sort_perm. }
  assert (Hnd' : NoDup (ranking Math_pow symbolData)).
  { apply (Permutation_NoDup (Permutation_sym Hperm)). exact Hnd. }
  split; [exact Hnd'|]. split.
  - intros s. rewrite <- Hin. split; apply Permutation_in;
      [exact Hperm|exact (Permutation_sym Hperm)].
  - rewrite <- (length_map fst symbolData).
    apply NoDup_incl_length; [exact Hnd'|].
    intros s Hs. apply Hin. apply (Permutation_in _ Hperm Hs).
Qed.

Local Open Scope float_scope.

Lemma number_sign_nonpositive (v : number) :
  (number_sign v <=? 0)%Z = negb (0 <? v).
Proof.
  unfold number_sign. destruct (v <? 0) eqn:Hneg.
  - now rewrite (ltb_asym _ _ Hneg).
  - destruct (0 <? v); reflexivity.
Qed.

Section ByKey.

Context {A : Type}.
Variable key : A -> number.

(** Insertion under the comparator [(a, b) => key(b) - key(a)] keeps a
    list of non-NaN keys in descending order. *)
Lemma insert_descending_by_key (x : A) (sorted : list A) :
  is_nan (key x) = false ->
  Forall (fun y => is_nan (key y) = false) sorted ->
  StronglySorted (fun a b => (key b <=? key a) = true) sorted ->
  StronglySorted (fun a b => (key b <=? key a) = true)
    (insert (fun a b => number_sign (key b - key a)) x sorted).
Proof.
  intros Hx Hn Hs. induction Hs as [|y rest Hrest IH Hy]; cbn [insert].
  - repeat constructor.
  - inversion Hn as [|? ? Hny Hnrest]; subst.
    rewrite number_sign_nonpositive.
    destruct (sub_sign (key x) (key y) Hx Hny) as [_ Hpos]. rewrite Hpos.
    destruct (key x <? key y) eqn:Hlt; cbn [negb].
    + constructor; [now apply IH|].
      apply (Permutation_Forall (x := x :: rest)).
      * symmetry. apply insert_perm.
      * constructor; [now apply ltb_leb|assumption].
    + assert (Hle : (key y <=? key x) = true) by (now apply not_ltb_leb).
      constructor; [now constructor|].
      constructor; [assumption|].
      eapply Forall_impl; [|exact Hy]. cbn. intros z Hz.
      now apply leb_trans with (key y).
Qed.

Lemma sortByNumber_descending (arr : list A) :
  Forall (fun y => is_nan (key y) = false) arr ->
  StronglySorted (fun a b => (key b <=? key a) = true)
    (sortByNumber (fun a b => key b - key a) arr).
Proof.
  unfold sortByNumber. induction 1 as [|x rest Hx Hrest IH]; cbn [sort fold_right].
  - constructor.
  - apply insert_descending_by_key; auto.
    apply (Permutation_Forall (x := rest)); [|assumption].
    symmetry. apply sort_perm.
Qed.

End ByKey.

(** X13. When no symbol's Sharpe ratio is NaN, the ranking of
    [compare_symbols] lists the symbols in descending order of Sharpe
    ratio: an earlier entry never has a smaller ratio than a later one. *)
Theorem X13_ranking_descends_by_sharpe
  (symbolData : list (string * list OHLCV)) :
  Forall (fun d => is_nan (sharpeRatio (calculatePriceStats Math_pow (snd d)))
                   = false) symbolData ->
  ranking Math_pow symbolData = map fst (rankedEntries Math_pow symbolData)
  /\ Permutation (rankedEntries Math_pow symbolData)
                 (performanceSymbols Math_pow symbolData)
  /\ StronglySorted
       (fun earlier later =>
          (Performance.sharpeRatio (snd later)
           <=? Performance.sharpeRatio (snd earlier)) = true)
       (rankedEntries Math_pow symbolData).
Proof.
  intros Hn. split; [reflexivity|]. split.
  - unfold rankedEntries, sortByNumber. apply sort_perm.
  - unfold rankedEntries.
    apply (sortByNumber_descending
             (fun e : string * Performance.Entry =>
                Performance.sharpeRatio (snd e))).
    apply (performanceSymbols_values
             (fun e => is_nan (Performance.sharpeRatio e) = false)).
    exact Hn.
Qed.

End RankingFacts.

(* ================================================================== *)
(** * Size and types of the returned levels *)
(* ================================================================== *)

Section LevelFacts.

Variable threshold : number.

Lemma clusterStep_grows (acc : list Level) (level : Level) :
  length acc <= length (clusterStep threshold acc level).
Proof.
  unfold clusterStep. destruct (findIndex _ _).
  - rewrite update_length. lia.
  - rewrite length_app. cbn. lia.
Qed.

Lemma fold_cluster_grows (levels acc : list Level) :
  length acc <= length (fold_left (clusterStep threshold) levels acc).
Proof.
  revert acc. induction levels as [|level rest IH]; intros acc; cbn [fold_left].
  - lia.
  - pose proof (clusterStep_grows acc level).
    pose proof (IH (clusterStep threshold acc level)). lia.
Qed.

Lemma cluster_nil_iff (levels : list Level) :
  cluster threshold levels = [] <-> levels = [].
Proof.
  split; [|intros ->; reflexivity].
  destruct levels as [|level rest]; [reflexivity|].
  unfold cluster. cbn [fold_left]. intros H.
  pose proof (fold_cluster_grows rest (clusterStep threshold [] level)) as Hlen.
  rewrite H in Hlen. cbn in Hlen. lia.
Qed.

Lemma clusterStep_type (t : LevelType) (acc : list Level) (level : Level) :
  Forall (fun l => type l = t) acc -> type level = t ->
  Forall (fun l => type l = t) (clusterStep threshold acc level).
Proof.
  intros Hacc Hlevel.
  destruct (clusterStep_cases threshold acc level)
    as [(k & x & Hk & _ & ->)|[_ ->]].
  - apply Forall_app. split; [now apply Forall_firstn|].
    constructor; [|now apply Forall_skipn].
    cbn [merge type]. rewrite Forall_forall in Hacc. apply Hacc.
    eapply nth_error_In; eassumption.
  - apply Forall_app. split; [assumption|]. now constructor.
Qed.

Lemma cluster_type (t : LevelType) (levels : list Level) :
  Forall (fun l => type l = t) levels ->
  Forall (fun l => type l = t) (cluster threshold levels).
Proof.
  unfold cluster. intros H.
  assert (Hacc : Forall (fun l => type l = t) []) by constructor.
  revert Hacc. generalize (@nil Level).
  induction H as [|level rest Hl _ IH]; intros acc Hacc; cbn [fold_left];
    [assumption|].
  apply IH. now apply clusterStep_type.
Qed.

(** X14. [findSupportResistance] never returns more levels than it found
    candidates, returns none exactly when there is no candidate, and
    reports a support only if some low is a local minimum and a resistance
    only if some high is a local maximum. *)
Theorem X14_levels_come_from_candidates
  (ohlcv : list OHLCV) (lookback : nat) :
  let found := findSupportResistance ohlcv lookback threshold in
  let maxima := localMaxima (map high ohlcv) lookback in
  let minima := localMinima (map low ohlcv) lookback in
  length found <= length maxima + length minima
  /\ (found = [] <-> maxima = [] /\ minima = [])
  /\ (minima = [] -> Forall (fun l => type l = resistance) found)
  /\ (maxima = [] -> Forall (fun l => type l = support) found).
Proof.
  intros found maxima minima.
  assert (Hperm : Permutation found (cluster threshold (candidates ohlcv lookback)))
    by apply sort_perm.
  assert (Hcand : candidates ohlcv lookback
                  = map (fun i => {| price := get (map high ohlcv) i;
                                     type := resistance; strength := 1 |}) maxima
                    ++ map (fun i => {| price := get (map low ohlcv) i;
                                        type := support; strength := 1 |}) minima)
    by apply candidates_eq.
  split; [|split; [|split]].
  - rewrite (Permutation_length Hperm).
    pose proof (cluster_length threshold (candidates ohlcv lookback)) as Hlen.
    rewrite candidates_length in Hlen. exact Hlen.
  - split.
    + intros Hnil. rewrite Hnil in Hperm. apply Permutation_nil in Hperm.
      apply (proj1 (cluster_nil_iff _)) in Hperm. rewrite Hcand in Hperm.
      apply app_eq_nil in Hperm. destruct Hperm as [H1 H2].
      apply map_eq_nil in H1, H2. auto.
    + intros [H1 H2]. apply Permutation_nil.
      rewrite Hperm, Hcand, H1, H2. reflexivity.
  - intros Hmin. apply (Permutation_Forall (Permutation_sym Hperm)).
    apply cluster_type. rewrite Hcand, Hmin, app_nil_r.
    apply Forall_forall. intros l Hl. apply in_map_iff in Hl.
    destruct Hl as (i & <- & _). reflexivity.
  - intros Hmax. apply (Permutation_Forall (Permutation_sym Hperm)).
    apply cluster_type. rewrite Hcand, Hmax. cbn [map app].
    apply Forall_forall. intros l Hl. apply in_map_iff in Hl.
    destruct Hl as (i & <- & _). reflexivity.
Qed.

End LevelFacts.

(* ================================================================== *)
(** * Sample runs of the analysis tools *)
(* ================================================================== *)

Lemma X9_witness_one_candle :
  (length [Sample.bar 1 6 4 5] < 2)
  /\ is_nan (stdDev (calculatePriceStats Sample.pow_by_squaring
                       [Sample.bar 1 6 4 5])) = true
  /\ Analysis.marketVolatility Sample.pow_by_squaring [Sample.bar 1 6 4 5]
     = "low"%string.
Proof.
  split; [cbn; lia|].
  apply (X9_short_history_volatility_low Sample.pow_by_squaring
           [Sample.bar 1 6 4 5]).
  cbn; lia.
Defined.

Lemma X10_witness_three_bars_at_five :
  Forall (fun d => close d = 5%float) Sample.constant5
  /\ Analysis.marketVolatility Sample.pow_by_squaring Sample.constant5
     = "low"%string.
Proof.
  assert (H5 : Forall (fun d => close d = 5%float) Sample.constant5)
    by (repeat constructor).
  split; [exact H5|].
  apply (X10_constant_price_volatility_low Sample.pow_by_squaring
           Sample.constant5 5%float); try reflexivity; try exact H5.
  - cbn; lia.
  - unfold MAX_ARRAY_LENGTH; cbn; lia.
Defined.

Example twoSymbols_ranking :
  Analysis.ranking Sample.pow_by_squaring AnalysisSample.twoSymbols
  = ["ETHUSDT"; "BTCUSDT"]%string.
Proof. vm_compute. reflexivity. Qed.

Lemma X13_witness_two_symbols :
  Forall (fun d => is_nan (sharpeRatio
                             (calculatePriceStats Sample.pow_by_squaring (snd d)))
                   = false) AnalysisSample.twoSymbols
  /\ StronglySorted
       (fun earlier later =>
          (Performance.sharpeRatio (snd later)
           <=? Performance.sharpeRatio (snd earlier))%float = true)
       (Analysis.rankedEntries Sample.pow_by_squaring AnalysisSample.twoSymbols).
Proof.
  assert (Hn : Forall (fun d => is_nan (sharpeRatio
                                         (calculatePriceStats
                                            Sample.pow_by_squaring (snd d)))
                               = false) AnalysisSample.twoSymbols)
    by (repeat constructor).
  split; [exact Hn|].
  apply (X13_ranking_descends_by_sharpe Sample.pow_by_squaring
           AnalysisSample.twoSymbols Hn).
Defined.
